(** * the_snake: a shallow embedding of [the_snake.py]

    The game state of the Python program is embedded as records and pure
    functions.  Python integers are unbounded, hence [Z]; tuples of two
    integers are pairs; lists are lists; the [set] of board cells is a
    [gset]; the dictionary [direction_map] is a [gmap].  Exceptions are the
    [Raise] results of a small error monad.  Reading the event queue, the
    random generator and the high-score file are the inputs of the
    functions that, in Python, perform the effect. *)

From Stdlib Require Import ZArith String Ascii Decimal DecimalString DecimalZ.
From stdpp Require Import base tactics option list gmap strings.

Local Open Scope Z_scope.

(** ** Exceptions *)

Inductive exn : Type :=
| ValueError
| IndexError
| SystemExit
| OSError.

Inductive result (A : Type) : Type :=
| Ok (a : A)
| Raise (e : exn).

Arguments Ok {A} a.
Arguments Raise {A} e.

#[global] Instance result_ret : MRet result := fun A a => Ok a.
#[global] Instance result_bind : MBind result := fun A B f m =>
  match m with
  | Ok a => f a
  | Raise e => Raise e
  end.

(** ** Text: [str.strip], [int(str)] and [str(int)]

    A character is a code point below 256.  [is_space] is [str.isspace]
    on these code points. *)

Definition is_space (c : ascii) : bool :=
  let n := nat_of_ascii c in
  ((9 <=? n)%nat && (n <=? 13)%nat)
  || ((28 <=? n)%nat && (n <=? 32)%nat)
  || (n =? 133)%nat || (n =? 160)%nat.

Fixpoint lstrip (s : string) : string :=
  match s with
  | EmptyString => EmptyString
  | String c s' => if is_space c then lstrip s' else s
  end.

Fixpoint rstrip (s : string) : string :=
  match s with
  | EmptyString => EmptyString
  | String c s' =>
      match rstrip s' with
      | EmptyString => if is_space c then EmptyString else String c EmptyString
      | r => String c r
      end
  end.

Definition strip (s : string) : string := rstrip (lstrip s).

(** Digits of a decimal literal: a digit, then digits each optionally
    preceded by one underscore. *)
Fixpoint int_digits (s : string) : option uint :=
  match s with
  | EmptyString => None
  | String c s' =>
      match s' with
      | EmptyString => uint_of_char c (Some Nil)
      | String "_"%char s'' => uint_of_char c (int_digits s'')
      | String _ _ => uint_of_char c (int_digits s')
      end
  end.

(** [int(s)] for a string, base 10: surrounding white space is dropped,
    one sign is allowed, [ValueError] otherwise. *)
Definition int (s : string) : result Z :=
  match strip s with
  | String "-"%char ds =>
      match int_digits ds with
      | Some d => Ok (- Z.of_uint d)
      | None => Raise ValueError
      end
  | String "+"%char ds =>
      match int_digits ds with
      | Some d => Ok (Z.of_uint d)
      | None => Raise ValueError
      end
  | ds =>
      match int_digits ds with
      | Some d => Ok (Z.of_uint d)
      | None => Raise ValueError
      end
  end.

(** [str(n)] for an integer. *)
Definition str (n : Z) : string := NilZero.string_of_int (Z.to_int n).

(** ** The high-score file

    The file [HIGH_SCORE_FILE] is [None] when it does not exist and
    [Some text] when it holds [text].  [load_high_score] and
    [save_high_score] below are the two functions for a path that [open]
    can open; the failures of [open] are in module [Disk] further down. *)

Definition file := option string.

(** [try: return int(file.read().strip()) except ValueError: return 0] *)
Definition load_high_score (f : file) : result Z :=
  match f with
  | Some text =>
      match int (strip text) with
      | Ok v => Ok v
      | Raise ValueError => Ok 0
      | Raise e => Raise e
      end
  | None => Ok 0
  end.

Definition save_high_score (score : Z) (f : file) : file := Some (str score).

(** ** The board *)

Definition cell : Type := Z * Z.
Definition color : Type := Z * Z * Z.

Definition SCREEN_WIDTH : Z := 640.
Definition SCREEN_HEIGHT : Z := 480.
Definition GRID_SIZE : Z := 20.
Definition GRID_WIDTH : Z := SCREEN_WIDTH / GRID_SIZE.
Definition GRID_HEIGHT : Z := SCREEN_HEIGHT / GRID_SIZE.

Definition ALL_CELLS : gset cell :=
  list_to_set (x ← seqZ 0 GRID_WIDTH; y ← seqZ 0 GRID_HEIGHT;
               [(x * GRID_SIZE, y * GRID_SIZE)]).

Definition UP : cell := (0, -1).
Definition DOWN : cell := (0, 1).
Definition LEFT : cell := (-1, 0).
Definition RIGHT : cell := (1, 0).

Definition APPLE_COLOR : color := (255, 0, 0).
Definition BAD_FOOD_COLOR : color := (255, 165, 0).
Definition SNAKE_COLOR : color := (0, 255, 0).
Definition OBSTACLE_COLOR : color := (128, 128, 128).

Definition SPEED : Z := 10.

Definition get_available_positions (snake_positions : list cell) : gset cell :=
  ALL_CELLS ∖ list_to_set snake_positions.

(** [random.choice(seq)]: the element at a random index below [len(seq)];
    [r] is the number drawn from the generator.  An empty sequence raises
    [IndexError]. *)
Definition choice {A : Type} (seq : list A) (r : nat) : result A :=
  match seq !! (r `mod` List.length seq)%nat with
  | Some x => Ok x
  | None => Raise IndexError
  end.

(** [list.pop()]: removes and returns the last element. *)
Definition pop {A : Type} (l : list A) : result (list A * A) :=
  match last l with
  | Some x => Ok (removelast l, x)
  | None => Raise IndexError
  end.

(** ** Game objects *)

Module GameObject.
Record t : Type := mk { position : cell; body_color : color }.
End GameObject.

Module Apple.
Definition randomize_position (snake_positions : list cell) (r : nat)
  : result cell :=
  let available_positions := get_available_positions snake_positions in
  choice (elements available_positions) r.

Definition __init__ (snake_positions : list cell) (r : nat)
  : result GameObject.t :=
  position ← randomize_position snake_positions r;
  mret (GameObject.mk position APPLE_COLOR).
End Apple.

Module BadFood.
Definition randomize_position (snake_positions : list cell) (r : nat)
  : result cell :=
  let available_positions := get_available_positions snake_positions in
  choice (elements available_positions) r.

Definition __init__ (snake_positions : list cell) (r : nat)
  : result GameObject.t :=
  position ← randomize_position snake_positions r;
  mret (GameObject.mk position BAD_FOOD_COLOR).
End BadFood.

Module Obstacle.
Definition randomize_position (snake_positions : list cell) (r : nat)
  : result cell :=
  let available_positions := get_available_positions snake_positions in
  choice (elements available_positions) r.

Definition __init__ (snake_positions : list cell) (r : nat)
  : result GameObject.t :=
  position ← randomize_position snake_positions r;
  mret (GameObject.mk position OBSTACLE_COLOR).
End Obstacle.

(** [o.randomize_position(snake_positions)] on an existing object. *)
Definition relocate (randomize : list cell → nat → result cell)
    (snake_positions : list cell) (r : nat) (o : GameObject.t)
  : result GameObject.t :=
  p ← randomize snake_positions r;
  mret (GameObject.mk p (GameObject.body_color o)).

(** ** The snake *)

Module Snake.
Record t : Type := mk {
  length : Z;
  positions : list cell;
  direction : cell;
  next_direction : option cell;
  last : option cell;
  position : cell;
  body_color : color
}.

Definition __init__ : t :=
  let positions := [(SCREEN_WIDTH / 2, SCREEN_HEIGHT / 2)] in
  {| length := 1;
     positions := positions;
     direction := RIGHT;
     next_direction := None;
     last := None;
     position := (SCREEN_WIDTH / 2, SCREEN_HEIGHT / 2);
     body_color := SNAKE_COLOR |}.

Definition get_head_position (s : t) : result cell :=
  match positions s with
  | c :: _ => Ok c
  | [] => Raise IndexError
  end.

Definition update_direction (s : t) : t :=
  match next_direction s with
  | Some d =>
      {| length := length s; positions := positions s; direction := d;
         next_direction := None; last := last s; position := position s;
         body_color := body_color s |}
  | None => s
  end.

Definition reset (s : t) : t := __init__.

Definition set_position (s : t) (p : cell) : t :=
  {| length := length s; positions := positions s;
     direction := direction s; next_direction := next_direction s;
     last := last s; position := p; body_color := body_color s |}.

Definition set_body (s : t) (ps : list cell) (l : option cell) : t :=
  {| length := length s; positions := ps;
     direction := direction s; next_direction := next_direction s;
     last := l; position := position s; body_color := body_color s |}.

Definition set_length (s : t) (n : Z) : t :=
  {| length := n; positions := positions s;
     direction := direction s; next_direction := next_direction s;
     last := last s; position := position s; body_color := body_color s |}.

Definition set_next_direction (s : t) (d : option cell) : t :=
  {| length := length s; positions := positions s;
     direction := direction s; next_direction := d;
     last := last s; position := position s; body_color := body_color s |}.

(** The cell [new] computed at the start of [move]. *)
Definition next_head (cur : cell) (d : cell) : cell :=
  let '(x, y) := d in
  ((cur.1 + x * GRID_SIZE) `mod` SCREEN_WIDTH,
   (cur.2 + y * GRID_SIZE) `mod` SCREEN_HEIGHT).

Definition move (s : t) : result t :=
  cur ← get_head_position s;
  let new := next_head cur (direction s) in
  s' ← (if bool_decide (new ∈ drop 1 (positions s)) then
          mret (reset s)
        else
          let ps := new :: positions s in
          if bool_decide (Z.of_nat (List.length ps) > length s) then
            '(ps', l) ← pop ps;
            mret (set_body s ps' (Some l))
          else
            mret (set_body s ps None));
  p ← get_head_position s';
  mret (set_position s' p).
End Snake.


(** ** Input

    [pygame.event.get()] returns the events queued since the last call.  The
    program looks at the type of an event and, for a key press, at its key
    code.  The key codes are constants of pygame; the program fixes none of
    their values, so they are a parameter of [handle_keys]. *)

Inductive event : Type :=
| QUIT
| KEYDOWN (key : Z)
| OTHER.

Record keys : Type := {
  K_ESCAPE : Z;
  K_q : Z;
  K_w : Z;
  K_UP : Z;
  K_DOWN : Z;
  K_LEFT : Z;
  K_RIGHT : Z
}.

(** The key codes of pygame 2. *)
Definition pygame_keys : keys :=
  {| K_ESCAPE := 27; K_q := 113; K_w := 119;
     K_UP := 1073741906; K_DOWN := 1073741905;
     K_LEFT := 1073741904; K_RIGHT := 1073741903 |}.

Definition direction_map (K : keys) : gmap Z cell :=
  <[K_RIGHT K := RIGHT]> (<[K_LEFT K := LEFT]>
    (<[K_DOWN K := DOWN]> (<[K_UP K := UP]> ∅))).

(** The body of the [for] loop of [handle_keys], for one event. *)
Definition handle_event (K : keys) (e : event)
    (st : Snake.t * Z) : result (Snake.t * Z) :=
  let '(snake, current_speed) := st in
  match e with
  | QUIT => Raise SystemExit
  | KEYDOWN key =>
      if bool_decide (key = K_ESCAPE K) then Raise SystemExit
      else if bool_decide (key = K_q K) then
        mret (snake, current_speed + 2)
      else if bool_decide (key = K_w K) then
        mret (snake, Z.max 1 (current_speed - 2))
      else
        let new_direction := direction_map K !! key in
        mret (Snake.set_next_direction snake new_direction, current_speed)
  | OTHER => mret (snake, current_speed)
  end.

Fixpoint handle_keys_loop (K : keys) (events : list event)
    (st : Snake.t * Z) : result (Snake.t * Z) :=
  match events with
  | [] => mret st
  | e :: events' => st' ← handle_event K e st; handle_keys_loop K events' st'
  end.

(** [handle_keys(snake, current_speed)]: the snake is changed in place and
    the speed is returned; here both come back. *)
Definition handle_keys (K : keys) (events : list event)
    (snake : Snake.t) (current_speed : Z) : result (Snake.t * Z) :=
  handle_keys_loop K events (snake, current_speed).

(** ** The window title and the stored record

    [caption] is the record shown in the window title, [None] for the
    plain title set when the module is loaded. *)

Record world : Type := {
  high_score_file : file;
  caption : option Z
}.

Definition change_title (snake_length : Z) (w : world) : result world :=
  high_score ← load_high_score (high_score_file w);
  if bool_decide (snake_length > high_score) then
    mret {| high_score_file := save_high_score snake_length (high_score_file w);
            caption := Some snake_length |}
  else
    mret {| high_score_file := high_score_file w;
            caption := Some high_score |}.

(** ** The game loop *)

Record game : Type := {
  snake : Snake.t;
  apple : GameObject.t;
  bad_food : GameObject.t;
  obstacle : GameObject.t;
  current_speed : Z;
  env : world
}.

(** What one pass of the loop reads: the queued events and one random
    number for each of the three objects, used if the object moves. *)
Record tick_input : Type := {
  events : list event;
  r_apple : nat;
  r_bad_food : nat;
  r_obstacle : nat
}.

(** [main] up to the loop. *)
Definition main_start (i : tick_input) (w : world) : result game :=
  let snake := Snake.__init__ in
  apple ← Apple.__init__ (Snake.positions snake) (r_apple i);
  bad_food ← BadFood.__init__ (Snake.positions snake) (r_bad_food i);
  obstacle ← Obstacle.__init__ (Snake.positions snake) (r_obstacle i);
  let current_speed := SPEED in
  w' ← change_title (Snake.length snake) w;
  mret {| snake := snake; apple := apple; bad_food := bad_food;
          obstacle := obstacle; current_speed := current_speed; env := w' |}.

(** [handle_keys], [update_direction] and [move] of one pass. *)
Definition step_snake (K : keys) (i : tick_input) (g : game) : result game :=
  '(snake1, speed) ← handle_keys K (events i) (snake g) (current_speed g);
  let snake2 := Snake.update_direction snake1 in
  snake3 ← Snake.move snake2;
  mret {| snake := snake3; apple := apple g; bad_food := bad_food g;
          obstacle := obstacle g; current_speed := speed; env := env g |}.

(** [if snake.get_head_position() == apple.position: ...] *)
Definition check_apple (i : tick_input) (g : game) : result game :=
  head ← Snake.get_head_position (snake g);
  if bool_decide (head = GameObject.position (apple g)) then
    let snake' := Snake.set_length (snake g) (Snake.length (snake g) + 1) in
    apple' ← relocate Apple.randomize_position
               (Snake.positions snake') (r_apple i) (apple g);
    mret {| snake := snake'; apple := apple'; bad_food := bad_food g;
            obstacle := obstacle g; current_speed := current_speed g;
            env := env g |}
  else mret g.

(** [if snake.get_head_position() == bad_food.position: ...] *)
Definition check_bad_food (i : tick_input) (g : game) : result game :=
  head ← Snake.get_head_position (snake g);
  if bool_decide (head = GameObject.position (bad_food g)) then
    '(snake', w') ←
      (if bool_decide (Snake.length (snake g) > 1) then
         let s1 := Snake.set_length (snake g) (Snake.length (snake g) - 1) in
         '(ps, _) ← pop (Snake.positions s1);
         mret (Snake.set_body s1 ps (Snake.last s1), env g)
       else
         w' ← change_title (Snake.length (snake g)) (env g);
         mret (Snake.reset (snake g), w'));
    bad_food' ← relocate BadFood.randomize_position
                  (Snake.positions snake') (r_bad_food i) (bad_food g);
    mret {| snake := snake'; apple := apple g; bad_food := bad_food';
            obstacle := obstacle g; current_speed := current_speed g;
            env := w' |}
  else mret g.

(** [if snake.get_head_position() == obstacle.position: ...] *)
Definition check_obstacle (i : tick_input) (g : game) : result game :=
  head ← Snake.get_head_position (snake g);
  if bool_decide (head = GameObject.position (obstacle g)) then
    w' ← change_title (Snake.length (snake g)) (env g);
    let snake' := Snake.reset (snake g) in
    obstacle' ← relocate Obstacle.randomize_position
                  (Snake.positions snake') (r_obstacle i) (obstacle g);
    mret {| snake := snake'; apple := apple g; bad_food := bad_food g;
            obstacle := obstacle'; current_speed := current_speed g;
            env := w' |}
  else mret g.

(** One pass of [while True]; drawing changes nothing of the state. *)
Definition tick (K : keys) (i : tick_input) (g : game) : result game :=
  g1 ← step_snake K i g;
  g2 ← check_apple i g1;
  g3 ← check_bad_food i g2;
  check_obstacle i g3.

(** The loop over the inputs of finitely many passes. *)
Fixpoint run (K : keys) (inputs : list tick_input) (g : game) : result game :=
  match inputs with
  | [] => mret g
  | i :: inputs' => g' ← tick K i g; run K inputs' g'
  end.

(** [main]: the start and then the loop. *)
Definition main (K : keys) (i0 : tick_input) (inputs : list tick_input)
    (w : world) : result game :=
  g ← main_start i0 w;
  run K inputs g.

(** ** When the high-score file cannot be opened

    [open(HIGH_SCORE_FILE, 'r')] and [open(HIGH_SCORE_FILE, 'w')] raise
    [OSError] when the operating system refuses the path: an entry without
    read permission or a directory for the first, a path that cannot be
    written for the second.  Nothing in the program catches [OSError].
    [can_read] says that opening and reading an existing entry succeed,
    [can_write] that opening for writing and writing succeed; [Some text]
    with [can_read = false] stands for an existing entry that cannot be
    read.  The functions of [Disk] are those of the program that reach the
    file, with these failures; with both permissions they are the functions
    above. *)

Record access : Type := { can_read : bool; can_write : bool }.

Module Disk.
(** [if os.path.exists(...): with open(...) as file: try: ... except
    ValueError: return 0] and [return 0]. *)
Definition load_high_score (a : access) (f : file) : result Z :=
  match f with
  | Some text =>
      if can_read a then
        match int (strip text) with
        | Ok v => Ok v
        | Raise ValueError => Ok 0
        | Raise e => Raise e
        end
      else Raise OSError
  | None => Ok 0
  end.

(** [with open(HIGH_SCORE_FILE, 'w') as file: file.write(str(score))] *)
Definition save_high_score (a : access) (score : Z) (f : file) : result file :=
  if can_write a then Ok (Some (str score)) else Raise OSError.

Definition change_title (a : access) (snake_length : Z) (w : world)
  : result world :=
  high_score ← load_high_score a (high_score_file w);
  if bool_decide (snake_length > high_score) then
    f ← save_high_score a snake_length (high_score_file w);
    mret {| high_score_file := f; caption := Some snake_length |}
  else
    mret {| high_score_file := high_score_file w;
            caption := Some high_score |}.

Definition main_start (a : access) (i : tick_input) (w : world)
  : result game :=
  let snake := Snake.__init__ in
  apple ← Apple.__init__ (Snake.positions snake) (r_apple i);
  bad_food ← BadFood.__init__ (Snake.positions snake) (r_bad_food i);
  obstacle ← Obstacle.__init__ (Snake.positions snake) (r_obstacle i);
  let current_speed := SPEED in
  w' ← change_title a (Snake.length snake) w;
  mret {| snake := snake; apple := apple; bad_food := bad_food;
          obstacle := obstacle; current_speed := current_speed; env := w' |}.

Definition check_bad_food (a : access) (i : tick_input) (g : game)
  : result game :=
  head ← Snake.get_head_position (snake g);
  if bool_decide (head = GameObject.position (bad_food g)) then
    '(snake', w') ←
      (if bool_decide (Snake.length (snake g) > 1) then
         let s1 := Snake.set_length (snake g) (Snake.length (snake g) - 1) in
         '(ps, _) ← pop (Snake.positions s1);
         mret (Snake.set_body s1 ps (Snake.last s1), env g)
       else
         w' ← change_title a (Snake.length (snake g)) (env g);
         mret (Snake.reset (snake g), w'));
    bad_food' ← relocate BadFood.randomize_position
                  (Snake.positions snake') (r_bad_food i) (bad_food g);
    mret {| snake := snake'; apple := apple g; bad_food := bad_food';
            obstacle := obstacle g; current_speed := current_speed g;
            env := w' |}
  else mret g.

Definition check_obstacle (a : access) (i : tick_input) (g : game)
  : result game :=
  head ← Snake.get_head_position (snake g);
  if bool_decide (head = GameObject.position (obstacle g)) then
    w' ← change_title a (Snake.length (snake g)) (env g);
    let snake' := Snake.reset (snake g) in
    obstacle' ← relocate Obstacle.randomize_position
                  (Snake.positions snake') (r_obstacle i) (obstacle g);
    mret {| snake := snake'; apple := apple g; bad_food := bad_food g;
            obstacle := obstacle'; current_speed := current_speed g;
            env := w' |}
  else mret g.

Definition tick (a : access) (K : keys) (i : tick_input) (g : game)
  : result game :=
  g1 ← step_snake K i g;
  g2 ← check_apple i g1;
  g3 ← check_bad_food a i g2;
  check_obstacle a i g3.
End Disk.

(** Both permissions, and none. *)
Definition full_access : access := {| can_read := true; can_write := true |}.
Definition no_access : access := {| can_read := false; can_write := false |}.

(** ** Conditions of a pass

    [body_length] is [len(snake.positions)]; [self_collision] is the test
    [new in self.positions[1:]] of [move]; [head_at] is the test
    [snake.get_head_position() == o.position] of the loop. *)

Definition body_length (s : Snake.t) : Z :=
  Z.of_nat (List.length (Snake.positions s)).

Definition self_collision (s : Snake.t) : bool :=
  match Snake.positions s with
  | cur :: rest => bool_decide (Snake.next_head cur (Snake.direction s) ∈ rest)
  | [] => false
  end.

Definition head_at (s : Snake.t) (o : GameObject.t) : bool :=
  match Snake.get_head_position s with
  | Ok h => bool_decide (h = GameObject.position o)
  | Raise _ => false
  end.

(** ** Some states of the game *)

Definition fresh_world : world :=
  {| high_score_file := None; caption := None |}.

Definition recorded (n : Z) : world :=
  {| high_score_file := Some (str n); caption := Some n |}.

Definition no_keys (r : nat) : tick_input :=
  {| events := []; r_apple := r; r_bad_food := r; r_obstacle := 0 |}.

Definition game_of (s : Snake.t) (a b o : cell) (w : world) : game :=
  {| snake := s;
     apple := GameObject.mk a APPLE_COLOR;
     bad_food := GameObject.mk b BAD_FOOD_COLOR;
     obstacle := GameObject.mk o OBSTACLE_COLOR;
     current_speed := SPEED;
     env := w |}.

(** The start of a game with the given cells for the three objects. *)
Definition start_with (a b o : cell) (w : world) : game :=
  game_of Snake.__init__ a b o w.

(** The snake after its first step to the right, with the given length. *)
Definition stepped_snake (n : Z) (ps : list cell) : Snake.t :=
  {| Snake.length := n;
     Snake.positions := ps;
     Snake.direction := RIGHT;
     Snake.next_direction := None;
     Snake.last := Some (320, 240);
     Snake.position := (340, 240);
     Snake.body_color := SNAKE_COLOR |}.

Definition coiled_snake : Snake.t :=
  {| Snake.length := 5;
     Snake.positions := [(20, 20); (0, 20); (0, 0); (20, 0); (40, 0)];
     Snake.direction := UP;
     Snake.next_direction := Some LEFT;
     Snake.last := None;
     Snake.position := (20, 20);
     Snake.body_color := SNAKE_COLOR |}.

Definition edge_snake : Snake.t :=
  {| Snake.length := 2;
     Snake.positions := [(620, 100); (600, 100)];
     Snake.direction := RIGHT;
     Snake.next_direction := None;
     Snake.last := None;
     Snake.position := (620, 100);
     Snake.body_color := SNAKE_COLOR |}.

Definition two_cell_snake : Snake.t :=
  {| Snake.length := 2;
     Snake.positions := [(0, 240); (620, 240)];
     Snake.direction := RIGHT;
     Snake.next_direction := None;
     Snake.last := None;
     Snake.position := (0, 240);
     Snake.body_color := SNAKE_COLOR |}.

(** ** Conditions on a snake *)

(** One of the four directions of the program. *)
Definition unit_direction (d : cell) : Prop :=
  d = UP ∨ d = DOWN ∨ d = LEFT ∨ d = RIGHT.

(** Every cell of the list is a cell of the board. *)
Definition on_grid (ps : list cell) : Prop := ∀ c, c ∈ ps → c ∈ ALL_CELLS.

(** The snake [edge_snake] after its step across the right edge. *)
Definition wrapped_snake : Snake.t :=
  {| Snake.length := 2;
     Snake.positions := [(0, 100); (620, 100)];
     Snake.direction := RIGHT;
     Snake.next_direction := None;
     Snake.last := Some (600, 100);
     Snake.position := (0, 100);
     Snake.body_color := SNAKE_COLOR |}.

(** ** Conditions on the key codes *)

(** The seven key codes the program names are different keys. *)
Definition keys_distinct (K : keys) : Prop :=
  NoDup [K_ESCAPE K; K_q K; K_w K; K_UP K; K_DOWN K; K_LEFT K; K_RIGHT K].

(** An event that ends the program. *)
Definition quits (K : keys) (e : event) : bool :=
  match e with
  | QUIT => true
  | KEYDOWN key => bool_decide (key = K_ESCAPE K)
  | OTHER => false
  end.

(** ** Blank text *)

(** Every character of the string is white space. *)
Fixpoint all_space (s : string) : bool :=
  match s with
  | EmptyString => true
  | String c s' => is_space c && all_space s'
  end.

(** ** Conditions on a state of the game *)

(** The body is not empty, the length is at least 1 and at most one more
    than the number of cells. *)
Definition sizes_ok (s : Snake.t) : Prop :=
  Snake.positions s ≠ []
  ∧ 1 ≤ Snake.length s
  ∧ Snake.length s ≤ body_length s + 1.

(** The body lies on the board without repeated cells, and the current and
    the queued direction are directions of the program. *)
Definition snake_ok (s : Snake.t) : Prop :=
  on_grid (Snake.positions s)
  ∧ NoDup (Snake.positions s)
  ∧ unit_direction (Snake.direction s)
  ∧ (∀ d, Snake.next_direction s = Some d → unit_direction d).

(** The three objects lie on the board. *)
Definition objects_on_grid (g : game) : Prop :=
  GameObject.position (apple g) ∈ ALL_CELLS
  ∧ GameObject.position (bad_food g) ∈ ALL_CELLS
  ∧ GameObject.position (obstacle g) ∈ ALL_CELLS.

(** The number of cells of the board. *)
Definition board_size : Z := GRID_WIDTH * GRID_HEIGHT.

(** The snake [two_cell_snake] after the bad food took its tail. *)
Definition shrunk_snake : Snake.t :=
  {| Snake.length := 1;
     Snake.positions := [(0, 240)];
     Snake.direction := RIGHT;
     Snake.next_direction := None;
     Snake.last := None;
     Snake.position := (0, 240);
     Snake.body_color := SNAKE_COLOR |}.

(** States of the game before and after one of the checks of a pass. *)
Definition at_apple : game :=
  game_of (stepped_snake 1 [(340, 240)]) (340, 240) (0, 0) (20, 0) fresh_world.

Definition after_apple : game :=
  game_of (stepped_snake 2 [(340, 240)]) (0, 380) (0, 0) (20, 0) fresh_world.

Definition at_obstacle : game :=
  game_of (stepped_snake 1 [(340, 240)]) (0, 0) (20, 0) (340, 240) fresh_world.

Definition after_obstacle : game :=
  start_with (0, 0) (20, 0) (0, 380) (recorded 1).

Definition at_bad_food_long : game :=
  game_of two_cell_snake (0, 0) (0, 240) (20, 0) fresh_world.

Definition after_bad_food_long : game :=
  game_of shrunk_snake (0, 0) (0, 380) (20, 0) fresh_world.

Definition at_bad_food_short : game :=
  game_of (stepped_snake 1 [(340, 240)]) (0, 0) (340, 240) (20, 0) fresh_world.

Definition after_bad_food_short : game :=
  start_with (0, 0) (0, 380) (20, 0) (recorded 1).

Definition before_quiet_pass : game :=
  start_with (0, 380) (0, 380) (0, 380) (recorded 1).

Definition after_quiet_pass : game :=
  game_of (stepped_snake 1 [(340, 240)]) (0, 380) (0, 380) (0, 380)
    (recorded 1).

(** * Properties *)

(** ** Text *)

Lemma rstrip_digits (d : uint) :
  rstrip (NilEmpty.string_of_uint d) = NilEmpty.string_of_uint d.
Proof.
  induction d as [|d IH|d IH|d IH|d IH|d IH|d IH|d IH|d IH|d IH|d IH];
    simpl; [reflexivity|..]; rewrite IH;
    destruct (NilEmpty.string_of_uint d); reflexivity.
Qed.

Lemma lstrip_digits (d : uint) :
  lstrip (NilEmpty.string_of_uint d) = NilEmpty.string_of_uint d.
Proof. destruct d; reflexivity. Qed.

Lemma int_digits_cons (c c' : ascii) (s : string) :
  c' ≠ "_"%char →
  int_digits (String c (String c' s)) = uint_of_char c (int_digits (String c' s)).
Proof.
  intros Hc.
  destruct c' as [[] [] [] [] [] [] [] []]; try reflexivity; congruence.
Qed.

Lemma int_digits_digits (d : uint) :
  d ≠ Nil → int_digits (NilEmpty.string_of_uint d) = Some d.
Proof.
  induction d as [|d IH|d IH|d IH|d IH|d IH|d IH|d IH|d IH|d IH|d IH];
    intros Hd; [congruence|..];
    (destruct d; [reflexivity|..]);
    specialize (IH ltac:(discriminate));
    cbn [NilEmpty.string_of_uint] in *;
    (rewrite int_digits_cons by discriminate); rewrite IH; reflexivity.
Qed.

Lemma to_int_digits (z : Z) :
  ∃ d, d ≠ Nil ∧ (Z.to_int z = Pos d ∨ Z.to_int z = Neg d).
Proof.
  destruct z as [|p|p]; simpl.
  - exists (D0 Nil). split; [congruence | by left].
  - exists (Pos.to_uint p). split; [apply DecimalPos.Unsigned.to_uint_nonnil | by left].
  - exists (Pos.to_uint p). split; [apply DecimalPos.Unsigned.to_uint_nonnil | by right].
Qed.

Lemma strip_str (z : Z) : strip (str z) = str z.
Proof.
  unfold str, strip.
  destruct (to_int_digits z) as (d & Hd & [-> | ->]); simpl;
    unfold NilZero.string_of_uint.
  - destruct d; try congruence; rewrite lstrip_digits; apply rstrip_digits.
  - assert (rstrip (NilEmpty.string_of_uint d) = NilEmpty.string_of_uint d)
      as Hr by apply rstrip_digits.
    destruct d; try congruence; simpl in *; rewrite Hr; reflexivity.
Qed.

Lemma int_str (z : Z) : int (str z) = Ok z.
Proof.
  unfold int. rewrite strip_str. unfold str.
  rewrite <- (DecimalZ.of_to z) at 2.
  destruct (to_int_digits z) as (d & Hd & [-> | ->]); simpl;
    unfold NilZero.string_of_uint.
  - pose proof (int_digits_digits d Hd) as Hi.
    destruct d; try congruence; simpl in *; rewrite Hi; reflexivity.
  - pose proof (int_digits_digits d Hd) as Hi.
    destruct d; try congruence; simpl in *; rewrite Hi; reflexivity.
Qed.

Lemma load_total (f : file) : ∃ v, load_high_score f = Ok v.
Proof.
  destruct f as [text|]; [|by exists 0]. unfold load_high_score.
  assert (∀ s, (∃ v, int s = Ok v) ∨ int s = Raise ValueError) as Hint.
  { intros s. unfold int.
    destruct (strip s) as [|[[] [] [] [] [] [] [] []] ds];
      destruct (int_digits _); eauto. }
  destruct (Hint (strip text)) as [[v ->] | ->]; eauto.
Qed.

(** ** The board *)

Lemma elem_of_ALL_CELLS (c : cell) :
  c ∈ ALL_CELLS ↔
  ∃ x y, 0 ≤ x < GRID_WIDTH ∧ 0 ≤ y < GRID_HEIGHT
         ∧ c = (x * GRID_SIZE, y * GRID_SIZE).
Proof.
  unfold ALL_CELLS. rewrite elem_of_list_to_set, list_elem_of_bind. split.
  - intros (x & Hc & Hx). apply list_elem_of_bind in Hc as (y & Hc & Hy).
    apply list_elem_of_singleton in Hc.
    apply elem_of_seqZ in Hx, Hy. exists x, y. repeat split; try lia. done.
  - intros (x & y & Hx & Hy & ->). exists x. split.
    + apply list_elem_of_bind. exists y. split; [by apply list_elem_of_singleton|].
      apply elem_of_seqZ. lia.
    + apply elem_of_seqZ. lia.
Qed.

Lemma elem_of_available (snake_positions : list cell) (c : cell) :
  c ∈ get_available_positions snake_positions ↔
  c ∈ ALL_CELLS ∧ c ∉ snake_positions.
Proof.
  unfold get_available_positions.
  rewrite elem_of_difference, elem_of_list_to_set. done.
Qed.

Lemma choice_elem_of {A : Type} (seq : list A) (r : nat) :
  seq ≠ [] → ∃ x, choice seq r = Ok x ∧ x ∈ seq.
Proof.
  intros Hne. unfold choice.
  assert (r `mod` List.length seq < List.length seq)%nat as Hlt.
  { apply Nat.mod_upper_bound. destruct seq; [done | simpl; lia]. }
  apply lookup_lt_is_Some in Hlt as [x Hx]. rewrite Hx.
  exists x. split; [done|]. by eapply list_elem_of_lookup_2.
Qed.

Lemma choice_available (snake_positions : list cell) (r : nat) :
  (∃ c, c ∈ ALL_CELLS ∧ c ∉ snake_positions) →
  ∃ p, choice (elements (get_available_positions snake_positions)) r = Ok p
       ∧ p ∈ ALL_CELLS ∧ p ∉ snake_positions.
Proof.
  intros (c & Hc & Hfree).
  assert (c ∈ elements (get_available_positions snake_positions)) as Hcin.
  { apply elem_of_elements, elem_of_available. split; assumption. }
  destruct (choice_elem_of (elements (get_available_positions snake_positions)) r)
    as (p & Hp & Hin).
  { intros Hnil. rewrite Hnil in Hcin. exact (proj1 (elem_of_nil c) Hcin). }
  exists p. split; [exact Hp|].
  apply elem_of_elements in Hin. apply elem_of_available. exact Hin.
Qed.

(** ** The snake *)

Lemma next_head_eq (hx hy dx dy : Z) :
  Snake.next_head (hx, hy) (dx, dy) =
  ((hx + dx * GRID_SIZE) `mod` SCREEN_WIDTH,
   (hy + dy * GRID_SIZE) `mod` SCREEN_HEIGHT).
Proof. reflexivity. Qed.

Lemma move_collision (s : Snake.t) (cur : cell) (rest : list cell) :
  Snake.positions s = cur :: rest →
  Snake.next_head cur (Snake.direction s) ∈ rest →
  Snake.move s = Ok Snake.__init__.
Proof.
  intros Hps Hin. unfold Snake.move, Snake.get_head_position.
  rewrite Hps. cbn [mbind result_bind drop].
  rewrite bool_decide_eq_true_2 by done. reflexivity.
Qed.

Lemma pop_cons {A : Type} (x : A) (l : list A) :
  ∃ y, pop (x :: l) = Ok (removelast (x :: l), y).
Proof.
  unfold pop. destruct (last (x :: l)) as [y|] eqn:Hl; [eauto|].
  apply last_None in Hl. done.
Qed.

Lemma move_no_collision (s : Snake.t) (cur : cell) (rest : list cell) :
  Snake.positions s = cur :: rest →
  Snake.next_head cur (Snake.direction s) ∉ rest →
  let new := Snake.next_head cur (Snake.direction s) in
  ∃ body l,
    Snake.move s = Ok (Snake.set_position (Snake.set_body s (new :: body) l) new)
    ∧ (if bool_decide (Z.of_nat (List.length (new :: cur :: rest)) > Snake.length s)
       then body = removelast (cur :: rest)
       else body = cur :: rest).
Proof.
  intros Hps Hnin new. unfold Snake.move, Snake.get_head_position.
  rewrite Hps. cbn [mbind result_bind drop]. fold new.
  rewrite bool_decide_eq_false_2 by done.
  destruct (bool_decide _) eqn:Hlen.
  - destruct (pop_cons new (cur :: rest)) as (y & Hy). rewrite Hy.
    exists (removelast (cur :: rest)), (Some y). split; [|done].
    reflexivity.
  - exists (cur :: rest), None. split; [|done]. reflexivity.
Qed.

(** * The claims *)

(** C1. When the cell computed for the next head,
    ((headX + dirX*GRID_SIZE) mod SCREEN_WIDTH,
     (headY + dirY*GRID_SIZE) mod SCREEN_HEIGHT),
    is one of [positions[1:]], [move] does not prepend it but resets the
    snake: the length is 1, the body is the single cell at the centre of the
    board, the direction is [RIGHT] and no direction is queued. *)
Theorem move_self_collision_resets
    (s : Snake.t) (hx hy dx dy : Z) (rest : list cell) :
  Snake.positions s = (hx, hy) :: rest →
  Snake.direction s = (dx, dy) →
  ((hx + dx * GRID_SIZE) `mod` SCREEN_WIDTH,
   (hy + dy * GRID_SIZE) `mod` SCREEN_HEIGHT) ∈ rest →
  ∃ s', Snake.move s = Ok s'
        ∧ Snake.length s' = 1
        ∧ Snake.positions s' = [(SCREEN_WIDTH / 2, SCREEN_HEIGHT / 2)]
        ∧ Snake.direction s' = RIGHT
        ∧ Snake.next_direction s' = None.
Proof.
  intros Hps Hd Hin. exists Snake.__init__.
  split; [|by repeat split].
  apply (move_collision s (hx, hy) rest Hps).
  rewrite Hd, next_head_eq. exact Hin.
Qed.

Lemma move_self_collision_resets_witness :
  ∃ s', Snake.move coiled_snake = Ok s'
        ∧ Snake.length s' = 1
        ∧ Snake.positions s' = [(SCREEN_WIDTH / 2, SCREEN_HEIGHT / 2)]
        ∧ Snake.direction s' = RIGHT
        ∧ Snake.next_direction s' = None.
Proof.
  apply (move_self_collision_resets coiled_snake 20 20 0 (-1)
           [(0, 20); (0, 0); (20, 0); (40, 0)]).
  - reflexivity.
  - reflexivity.
  - apply (bool_decide_unpack _). vm_compute. exact I.
Defined.

(** C2. When the cell computed for the next head is not one of
    [positions[1:]], [move] makes
    ((headX + dirX*GRID_SIZE) mod SCREEN_WIDTH,
     (headY + dirY*GRID_SIZE) mod SCREEN_HEIGHT)
    the new head, so the board wraps at both edges; a head in the rightmost
    column moving [RIGHT] goes to column 0 of the same row. *)
Theorem move_wraps_around
    (s : Snake.t) (hx hy dx dy : Z) (rest : list cell) :
  Snake.positions s = (hx, hy) :: rest →
  Snake.direction s = (dx, dy) →
  ((hx + dx * GRID_SIZE) `mod` SCREEN_WIDTH,
   (hy + dy * GRID_SIZE) `mod` SCREEN_HEIGHT) ∉ rest →
  (∃ s' body,
      Snake.move s = Ok s'
      ∧ Snake.positions s' =
          ((hx + dx * GRID_SIZE) `mod` SCREEN_WIDTH,
           (hy + dy * GRID_SIZE) `mod` SCREEN_HEIGHT) :: body
      ∧ Snake.get_head_position s' =
          Ok ((hx + dx * GRID_SIZE) `mod` SCREEN_WIDTH,
              (hy + dy * GRID_SIZE) `mod` SCREEN_HEIGHT)
      ∧ Snake.position s' =
          ((hx + dx * GRID_SIZE) `mod` SCREEN_WIDTH,
           (hy + dy * GRID_SIZE) `mod` SCREEN_HEIGHT))
  ∧ (hx = SCREEN_WIDTH - GRID_SIZE → (dx, dy) = RIGHT →
     0 ≤ hy < SCREEN_HEIGHT →
     ((hx + dx * GRID_SIZE) `mod` SCREEN_WIDTH,
      (hy + dy * GRID_SIZE) `mod` SCREEN_HEIGHT) = (0, hy)).
Proof.
  intros Hps Hd Hnin. split.
  - destruct (move_no_collision s (hx, hy) rest Hps) as (body & l & Hm & _).
    { rewrite Hd, next_head_eq. exact Hnin. }
    rewrite Hd, next_head_eq in Hm.
    eexists _, body. split; [exact Hm|]. by repeat split.
  - intros -> [= -> ->] Hy. unfold SCREEN_WIDTH, SCREEN_HEIGHT, GRID_SIZE.
    f_equal.
    rewrite Z.mul_0_l, Z.add_0_r. apply Z.mod_small. exact Hy.
Qed.

Lemma move_wraps_around_witness :
  (∃ s' body,
      Snake.move edge_snake = Ok s'
      ∧ Snake.positions s' =
          ((620 + 1 * GRID_SIZE) `mod` SCREEN_WIDTH,
           (100 + 0 * GRID_SIZE) `mod` SCREEN_HEIGHT) :: body
      ∧ Snake.get_head_position s' =
          Ok ((620 + 1 * GRID_SIZE) `mod` SCREEN_WIDTH,
              (100 + 0 * GRID_SIZE) `mod` SCREEN_HEIGHT)
      ∧ Snake.position s' =
          ((620 + 1 * GRID_SIZE) `mod` SCREEN_WIDTH,
           (100 + 0 * GRID_SIZE) `mod` SCREEN_HEIGHT))
  ∧ ((620 + 1 * GRID_SIZE) `mod` SCREEN_WIDTH,
     (100 + 0 * GRID_SIZE) `mod` SCREEN_HEIGHT) = (0, 100).
Proof.
  destruct (move_wraps_around edge_snake 620 100 1 0 [(600, 100)])
    as [Hmove Hwrap].
  - reflexivity.
  - reflexivity.
  - apply (bool_decide_unpack _). vm_compute. exact I.
  - split; [exact Hmove|]. apply Hwrap.
    + reflexivity.
    + reflexivity.
    + unfold SCREEN_HEIGHT. lia.
Defined.

(** C9. For a snake of at least two cells whose second cell is the cell the
    head has just left, queuing the exact reverse of the current direction
    and then running [update_direction] and [move] resets the snake: the
    body is the single centre cell and the length is 1. *)
Theorem reverse_direction_resets
    (s : Snake.t) (hx hy dx dy : Z) (second : cell) (rest : list cell) :
  Snake.positions s = (hx, hy) :: second :: rest →
  Snake.direction s = (dx, dy) →
  second = ((hx - dx * GRID_SIZE) `mod` SCREEN_WIDTH,
            (hy - dy * GRID_SIZE) `mod` SCREEN_HEIGHT) →
  ∃ s',
    Snake.move
      (Snake.update_direction
         (Snake.set_next_direction s (Some (- dx, - dy)))) = Ok s'
    ∧ Snake.positions s' = [(SCREEN_WIDTH / 2, SCREEN_HEIGHT / 2)]
    ∧ Snake.length s' = 1.
Proof.
  intros Hps Hd ->. exists Snake.__init__. split; [|done].
  eapply (move_collision _ (hx, hy)).
  - exact Hps.
  - cbn [Snake.update_direction Snake.set_next_direction
         Snake.next_direction Snake.direction].
    rewrite next_head_eq.
    replace (hx + - dx * GRID_SIZE) with (hx - dx * GRID_SIZE) by lia.
    replace (hy + - dy * GRID_SIZE) with (hy - dy * GRID_SIZE) by lia.
    apply list_elem_of_here.
Qed.

Lemma reverse_direction_resets_witness :
  ∃ s',
    Snake.move
      (Snake.update_direction
         (Snake.set_next_direction two_cell_snake (Some (- 1, - 0)))) = Ok s'
    ∧ Snake.positions s' = [(SCREEN_WIDTH / 2, SCREEN_HEIGHT / 2)]
    ∧ Snake.length s' = 1.
Proof.
  apply (reverse_direction_resets two_cell_snake 0 240 1 0 (620, 240) []).
  - reflexivity.
  - reflexivity.
  - reflexivity.
Defined.

(** C5. For every non-negative integer [v], [save_high_score(v)] followed
    by [load_high_score()] returns exactly [v], whatever the file held
    before. *)
Theorem save_then_load (v : Z) (f : file) :
  0 ≤ v → load_high_score (save_high_score v f) = Ok v.
Proof.
  intros _. unfold save_high_score, load_high_score.
  rewrite strip_str, int_str. reflexivity.
Qed.

Lemma save_then_load_witness :
  load_high_score (save_high_score 42 None) = Ok 42.
Proof. apply (save_then_load 42 None). lia. Defined.

Lemma disk_load_readable (a : access) (f : file) :
  can_read a = true → Disk.load_high_score a f = load_high_score f.
Proof.
  intros Hread. unfold Disk.load_high_score, load_high_score.
  destruct f; [by rewrite Hread | reflexivity].
Qed.

(** C6, as the code has it.  [load_high_score()] returns 0 when the file is
    absent and 0 when the file can be read and its contents do not parse as
    an integer; whenever the file is absent or can be read it returns an
    integer and raises nothing; when the file exists and cannot be opened,
    the [OSError] of [open] reaches the caller. *)
Theorem load_high_score_returns_or_open_fails :
  (∀ a : access, Disk.load_high_score a None = Ok 0)
  ∧ (∀ (a : access) (text : string),
        can_read a = true →
        (∀ v, int (strip text) ≠ Ok v) →
        Disk.load_high_score a (Some text) = Ok 0)
  ∧ (∀ (a : access) (f : file),
        f = None ∨ can_read a = true →
        ∃ v, Disk.load_high_score a f = Ok v)
  ∧ (∀ (a : access) (text : string),
        can_read a = false →
        Disk.load_high_score a (Some text) = Raise OSError).
Proof.
  split; [reflexivity|]. split; [|split].
  - intros a text Hread Hbad. rewrite (disk_load_readable a _ Hread).
    destruct (load_total (Some text)) as [v Hv]. rewrite Hv.
    cbn [load_high_score] in Hv.
    destruct (int (strip text)) as [v'|[]] eqn:Hi; [|congruence..].
    exfalso. by apply (Hbad v').
  - intros a f [-> | Hread]; [by exists 0|].
    rewrite (disk_load_readable a _ Hread). apply load_total.
  - intros a text Hread. unfold Disk.load_high_score. by rewrite Hread.
Qed.

Lemma load_high_score_returns_or_open_fails_witness :
  Disk.load_high_score no_access None = Ok 0
  ∧ Disk.load_high_score full_access (Some "abc"%string) = Ok 0
  ∧ (∃ v, Disk.load_high_score full_access (Some " 17 "%string) = Ok v)
  ∧ Disk.load_high_score no_access (Some "17"%string) = Raise OSError.
Proof.
  destruct load_high_score_returns_or_open_fails
    as (Habsent & Hbad & Hreturns & Hfails).
  split; [exact (Habsent no_access)|]. split; [|split].
  - apply (Hbad full_access "abc"%string); [reflexivity|].
    intros v. vm_compute. discriminate.
  - apply (Hreturns full_access). right. reflexivity.
  - apply (Hfails no_access "17"%string). reflexivity.
Defined.

(** C6, against the claim as it is stated.  A high-score file that exists
    and cannot be opened makes [load_high_score] raise [OSError]: it
    returns no integer. *)
Lemma load_raises_when_open_fails :
  Disk.load_high_score no_access (Some "17"%string) = Raise OSError
  ∧ ¬ (∃ v, Disk.load_high_score no_access (Some "17"%string) = Ok v).
Proof. split; [reflexivity|]. intros [v Hv]. discriminate Hv. Qed.

(** C8. For every sequence of snake positions that leaves some cell of the
    board free, [randomize_position(snake_positions)] gives the object a
    position that is in [ALL_CELLS] and is not a snake position, whatever
    number the random generator draws; this holds for the apple, the bad
    food and the obstacle. *)
Theorem randomize_position_avoids_snake
    (snake_positions : list cell) (r : nat) :
  (∃ c, c ∈ ALL_CELLS ∧ c ∉ snake_positions) →
  (∃ p, Apple.randomize_position snake_positions r = Ok p
        ∧ p ∈ ALL_CELLS ∧ p ∉ snake_positions)
  ∧ (∃ p, BadFood.randomize_position snake_positions r = Ok p
          ∧ p ∈ ALL_CELLS ∧ p ∉ snake_positions)
  ∧ (∃ p, Obstacle.randomize_position snake_positions r = Ok p
          ∧ p ∈ ALL_CELLS ∧ p ∉ snake_positions).
Proof.
  intros Hfree.
  unfold Apple.randomize_position, BadFood.randomize_position,
    Obstacle.randomize_position.
  repeat split; by apply choice_available.
Qed.

Lemma origin_in_ALL_CELLS : (0, 0) ∈ ALL_CELLS.
Proof.
  apply elem_of_ALL_CELLS. exists 0, 0.
  unfold GRID_WIDTH, GRID_HEIGHT, SCREEN_WIDTH, SCREEN_HEIGHT, GRID_SIZE.
  repeat split; lia.
Qed.

Lemma randomize_position_avoids_snake_witness :
  (∃ p, Apple.randomize_position [(320, 240); (300, 240)] 7 = Ok p
        ∧ p ∈ ALL_CELLS ∧ p ∉ [(320, 240); (300, 240)])
  ∧ (∃ p, BadFood.randomize_position [(320, 240); (300, 240)] 7 = Ok p
          ∧ p ∈ ALL_CELLS ∧ p ∉ [(320, 240); (300, 240)])
  ∧ (∃ p, Obstacle.randomize_position [(320, 240); (300, 240)] 7 = Ok p
          ∧ p ∈ ALL_CELLS ∧ p ∉ [(320, 240); (300, 240)]).
Proof.
  apply (randomize_position_avoids_snake [(320, 240); (300, 240)] 7).
  exists (0, 0). split; [exact origin_in_ALL_CELLS|].
  apply (bool_decide_unpack _). vm_compute. exact I.
Defined.

(** ** Keys *)

Lemma handle_event_unrecognised
    (K : keys) (key : Z) (snake : Snake.t) (speed : Z) :
  key ≠ K_ESCAPE K → key ≠ K_q K → key ≠ K_w K →
  key ∉ [K_UP K; K_DOWN K; K_LEFT K; K_RIGHT K] →
  handle_event K (KEYDOWN key) (snake, speed) =
  Ok (Snake.set_next_direction snake None, speed).
Proof.
  intros Hesc Hq Hw Harrow. unfold handle_event.
  rewrite !bool_decide_eq_false_2 by done.
  assert (direction_map K !! key = None) as ->; [|reflexivity].
  unfold direction_map.
  rewrite !lookup_insert_ne, lookup_empty; [done|..];
    intros <-; apply Harrow; set_solver.
Qed.

(** C3, what the code does.  A key press that is neither an arrow, Q, W nor
    Escape leaves the speed as it is but stores [None] in [next_direction]:
    pressing Up queues [UP], and pressing Up and then Space (key 32) within
    one pass leaves nothing queued. *)
Theorem unrecognised_key_drops_queued_direction :
  handle_keys pygame_keys [KEYDOWN (K_UP pygame_keys)] Snake.__init__ SPEED
  = Ok (Snake.set_next_direction Snake.__init__ (Some UP), SPEED)
  ∧ handle_keys pygame_keys [KEYDOWN (K_UP pygame_keys); KEYDOWN 32]
      Snake.__init__ SPEED
    = Ok (Snake.set_next_direction Snake.__init__ None, SPEED).
Proof. split; vm_compute; reflexivity. Qed.

(** ** The loop *)

Lemma bind_Ok {A B : Type} (f : A → result B) (m : result A) (b : B) :
  m ≫= f = Ok b → ∃ a, m = Ok a ∧ f a = Ok b.
Proof. destruct m as [a|e]; simpl; [eauto | discriminate]. Qed.

Lemma handle_event_body (K : keys) (e : event) (st st' : Snake.t * Z) :
  handle_event K e st = Ok st' →
  Snake.positions st'.1 = Snake.positions st.1
  ∧ Snake.length st'.1 = Snake.length st.1.
Proof.
  destruct st as [s v]. unfold handle_event.
  destruct e as [|key|]; [discriminate|..].
  - repeat case_bool_decide; try discriminate; intros [= <-]; split; reflexivity.
  - intros [= <-]; split; reflexivity.
Qed.

Lemma handle_keys_loop_body (K : keys) (evs : list event) (st st' : Snake.t * Z) :
  handle_keys_loop K evs st = Ok st' →
  Snake.positions st'.1 = Snake.positions st.1
  ∧ Snake.length st'.1 = Snake.length st.1.
Proof.
  revert st. induction evs as [|e evs IH]; intros st; simpl.
  - intros [= ->]. done.
  - intros (st1 & H1 & H2)%bind_Ok.
    apply handle_event_body in H1 as [<- <-]. by apply IH.
Qed.

Lemma handle_keys_body (K : keys) (evs : list event) (s s' : Snake.t) (v v' : Z) :
  handle_keys K evs s v = Ok (s', v') →
  Snake.positions s' = Snake.positions s ∧ Snake.length s' = Snake.length s.
Proof. intros H. by apply handle_keys_loop_body in H. Qed.

Lemma update_direction_body (s : Snake.t) :
  Snake.positions (Snake.update_direction s) = Snake.positions s
  ∧ Snake.length (Snake.update_direction s) = Snake.length s.
Proof. unfold Snake.update_direction. by destruct (Snake.next_direction s). Qed.

Lemma step_snake_inv (K : keys) (i : tick_input) (g g1 : game) :
  step_snake K i g = Ok g1 →
  ∃ s1 v,
    handle_keys K (events i) (snake g) (current_speed g) = Ok (s1, v)
    ∧ Snake.move (Snake.update_direction s1) = Ok (snake g1)
    ∧ apple g1 = apple g ∧ bad_food g1 = bad_food g
    ∧ obstacle g1 = obstacle g ∧ env g1 = env g.
Proof.
  unfold step_snake. intros ([s1 v] & Hk & Hm)%bind_Ok.
  apply bind_Ok in Hm as (s3 & Hm & [= <-]). exists s1, v. done.
Qed.

Lemma check_apple_inv (i : tick_input) (g g' : game) :
  check_apple i g = Ok g' →
  ∃ h, Snake.get_head_position (snake g) = Ok h
    ∧ ((h ≠ GameObject.position (apple g) ∧ g' = g)
       ∨ (h = GameObject.position (apple g)
          ∧ snake g' = Snake.set_length (snake g) (Snake.length (snake g) + 1)
          ∧ bad_food g' = bad_food g ∧ obstacle g' = obstacle g
          ∧ env g' = env g)).
Proof.
  unfold check_apple. intros (h & Hh & Hrest)%bind_Ok. exists h.
  split; [done|]. case_bool_decide.
  - right. apply bind_Ok in Hrest as (a & _ & [= <-]). done.
  - left. injection Hrest as <-. done.
Qed.

Lemma check_bad_food_inv (i : tick_input) (g g' : game) :
  check_bad_food i g = Ok g' →
  ∃ h, Snake.get_head_position (snake g) = Ok h
    ∧ ((h ≠ GameObject.position (bad_food g) ∧ g' = g)
       ∨ (h = GameObject.position (bad_food g)
          ∧ apple g' = apple g ∧ obstacle g' = obstacle g
          ∧ ((Snake.length (snake g) > 1
              ∧ (∃ ps x, pop (Snake.positions (snake g)) = Ok (ps, x)
                   ∧ Snake.positions (snake g') = ps)
              ∧ Snake.length (snake g') = Snake.length (snake g) - 1
              ∧ env g' = env g)
             ∨ (Snake.length (snake g) ≤ 1
                ∧ change_title (Snake.length (snake g)) (env g) = Ok (env g')
                ∧ snake g' = Snake.__init__)))).
Proof.
  unfold check_bad_food. intros (h & Hh & Hrest)%bind_Ok. exists h.
  split; [done|]. case_bool_decide as Hhit.
  - right. apply bind_Ok in Hrest as ([s' w'] & Hbody & Hrest).
    apply bind_Ok in Hrest as (b & _ & [= <-]). simpl.
    do 3 (split; [done|]). case_bool_decide as Hlen.
    + left. apply bind_Ok in Hbody as ([ps x] & Hpop & [= <- <-]).
      simpl in Hpop. split; [done|]. split; [by exists ps, x|]. done.
    + right. apply bind_Ok in Hbody as (w1 & Hw & [= <- <-]).
      split; [lia|]. done.
  - left. injection Hrest as <-. done.
Qed.

Lemma check_obstacle_inv (i : tick_input) (g g' : game) :
  check_obstacle i g = Ok g' →
  ∃ h, Snake.get_head_position (snake g) = Ok h
    ∧ ((h ≠ GameObject.position (obstacle g) ∧ g' = g)
       ∨ (h = GameObject.position (obstacle g)
          ∧ apple g' = apple g ∧ bad_food g' = bad_food g
          ∧ change_title (Snake.length (snake g)) (env g) = Ok (env g')
          ∧ snake g' = Snake.__init__)).
Proof.
  unfold check_obstacle. intros (h & Hh & Hrest)%bind_Ok. exists h.
  split; [done|]. case_bool_decide as Hhit.
  - right. apply bind_Ok in Hrest as (w' & Hw & Hrest).
    apply bind_Ok in Hrest as (o & _ & [= <-]). done.
  - left. injection Hrest as <-. done.
Qed.

Lemma tick_inv (K : keys) (i : tick_input) (g g' : game) :
  tick K i g = Ok g' →
  ∃ g1 g2 g3,
    step_snake K i g = Ok g1 ∧ check_apple i g1 = Ok g2
    ∧ check_bad_food i g2 = Ok g3 ∧ check_obstacle i g3 = Ok g'.
Proof.
  unfold tick. intros (g1 & H1 & H)%bind_Ok.
  apply bind_Ok in H as (g2 & H2 & H).
  apply bind_Ok in H as (g3 & H3 & H4). by exists g1, g2, g3.
Qed.

Lemma head_at_true (s : Snake.t) (o : GameObject.t) (h : cell) :
  Snake.get_head_position s = Ok h →
  head_at s o = true ↔ h = GameObject.position o.
Proof.
  intros Hh. unfold head_at. rewrite Hh. apply bool_decide_eq_true.
Qed.

Lemma pop_length {A : Type} (l ps : list A) (x : A) :
  pop l = Ok (ps, x) → List.length l = S (List.length ps).
Proof.
  unfold pop. destruct (last l) as [y|] eqn:Hl; [|discriminate].
  intros [= <- <-]. apply last_Some in Hl as [l' ->].
  rewrite removelast_last, length_app. simpl. lia.
Qed.

Lemma move_body_nonempty (s s' : Snake.t) :
  Snake.move s = Ok s' → Snake.positions s' ≠ [].
Proof.
  unfold Snake.move. intros (cur & _ & H)%bind_Ok.
  apply bind_Ok in H as (s1 & _ & H).
  apply bind_Ok in H as (p & Hp & [= <-]). simpl.
  unfold Snake.get_head_position in Hp. by destruct (Snake.positions s1).
Qed.

Lemma move_keeps_length (s s' : Snake.t) :
  body_length s = Snake.length s →
  self_collision s = false →
  Snake.move s = Ok s' →
  body_length s' = Snake.length s'.
Proof.
  unfold body_length, self_collision. intros Hinv Hnc Hm.
  destruct (Snake.positions s) as [|cur rest] eqn:Hps.
  { unfold Snake.move, Snake.get_head_position in Hm.
    rewrite Hps in Hm. discriminate. }
  apply bool_decide_eq_false in Hnc.
  destruct (move_no_collision s cur rest Hps Hnc) as (body & l & Hm' & Hbody).
  rewrite Hm' in Hm. injection Hm as <-.
  rewrite bool_decide_eq_true_2 in Hbody by (simpl in *; lia).
  subst body. cbn [Snake.set_position Snake.set_body Snake.positions
                   Snake.length].
  rewrite <- Hinv.
  destruct (pop_cons cur rest) as (y & Hy).
  apply pop_length in Hy. cbn [List.length] in *. lia.
Qed.

(** C4. From a snake with [len(positions) == length], a pass of the loop
    in which [move] finds no self-collision, the bad food does not reset
    the snake and the obstacle is not hit ends with
    [len(positions) == length] again, except when the apple was eaten in
    this pass: then [length] was incremented and
    [len(positions) == length - 1]. *)
Theorem tick_keeps_length
    (K : keys) (i : tick_input) (g : game) (s1 : Snake.t) (v : Z)
    (g1 g2 g3 g4 : game) :
  body_length (snake g) = Snake.length (snake g) →
  handle_keys K (events i) (snake g) (current_speed g) = Ok (s1, v) →
  self_collision (Snake.update_direction s1) = false →
  step_snake K i g = Ok g1 →
  check_apple i g1 = Ok g2 →
  check_bad_food i g2 = Ok g3 →
  check_obstacle i g3 = Ok g4 →
  (head_at (snake g2) (bad_food g2) = true → Snake.length (snake g2) > 1) →
  head_at (snake g3) (obstacle g3) = false →
  tick K i g = Ok g4
  ∧ (body_length (snake g4) = Snake.length (snake g4)
     ∨ (head_at (snake g1) (apple g1) = true
        ∧ body_length (snake g4) = Snake.length (snake g4) - 1)).
Proof.
  intros Hinv Hk Hnc H1 H2 H3 H4 Hbad Hobs. split.
  { unfold tick. rewrite H1. simpl. rewrite H2. simpl. rewrite H3. exact H4. }
  apply step_snake_inv in H1 as (s1' & v' & Hk' & Hm & _).
  rewrite Hk in Hk'. injection Hk' as <- <-.
  apply handle_keys_body in Hk as [Hps Hlen].
  destruct (update_direction_body s1) as [Hps' Hlen'].
  assert (body_length (snake g1) = Snake.length (snake g1)) as Hinv1.
  { apply (move_keeps_length (Snake.update_direction s1)); [|done..].
    unfold body_length in *. by rewrite Hps', Hlen', Hps, Hlen. }
  apply check_obstacle_inv in H4 as (h4 & Hh4 & [[_ ->] | [Hhit _]]);
    [|apply (head_at_true _ (obstacle g3)) in Hh4; apply Hh4 in Hhit;
      congruence].
  clear Hobs Hh4 h4.
  apply check_apple_inv in H2 as (h2 & Hh2 & Happle).
  apply check_bad_food_inv in H3 as (h3 & Hh3 & Hfood).
  assert (body_length (snake g3) - Snake.length (snake g3)
          = body_length (snake g2) - Snake.length (snake g2)) as Hshrink.
  { destruct Hfood as [[_ ->] | (Hhit & _ & _ & Hcase)]; [done|].
    destruct Hcase as [(_ & (ps & x & Hpop & Hps3) & Hlen3 & _) | (Hle & _)].
    - apply pop_length in Hpop. unfold body_length.
      rewrite Hps3, Hlen3, Hpop. lia.
    - apply (head_at_true _ (bad_food g2)) in Hh3. apply Hh3 in Hhit.
      apply Hbad in Hhit. lia. }
  destruct Happle as [[_ ->] | (Hhit & Hs2 & _)].
  - left. lia.
  - right. split; [by apply (head_at_true _ _ h2)|].
    rewrite Hs2 in Hshrink. unfold body_length in *.
    cbn [Snake.set_length Snake.positions Snake.length] in Hshrink. lia.
Qed.

Lemma tick_keeps_length_witness :
  tick pygame_keys (no_keys 0)
    (start_with (340, 240) (0, 0) (20, 0) fresh_world)
  = Ok (game_of (stepped_snake 2 [(340, 240)]) (0, 380) (0, 0) (20, 0)
          fresh_world)
  ∧ (body_length (stepped_snake 2 [(340, 240)]) = 2
     ∨ (head_at (stepped_snake 1 [(340, 240)])
          (GameObject.mk (340, 240) APPLE_COLOR) = true
        ∧ body_length (stepped_snake 2 [(340, 240)]) = 2 - 1)).
Proof.
  apply (tick_keeps_length pygame_keys (no_keys 0)
           (start_with (340, 240) (0, 0) (20, 0) fresh_world)
           Snake.__init__ SPEED
           (game_of (stepped_snake 1 [(340, 240)]) (340, 240) (0, 0) (20, 0)
              fresh_world)
           (game_of (stepped_snake 2 [(340, 240)]) (0, 380) (0, 0) (20, 0)
              fresh_world)
           (game_of (stepped_snake 2 [(340, 240)]) (0, 380) (0, 0) (20, 0)
              fresh_world)
           (game_of (stepped_snake 2 [(340, 240)]) (0, 380) (0, 0) (20, 0)
              fresh_world)).
  - reflexivity.
  - reflexivity.
  - vm_compute. reflexivity.
  - vm_compute. reflexivity.
  - vm_compute. reflexivity.
  - vm_compute. reflexivity.
  - vm_compute. reflexivity.
  - intros Hhit. vm_compute in Hhit. discriminate.
  - vm_compute. reflexivity.
Defined.

(** ** The stored record *)



Lemma main_start_coincident :
  main_start (no_keys 389) fresh_world
  = Ok (start_with (340, 240) (340, 240) (0, 380) (recorded 1)).
Proof. vm_compute. reflexivity. Qed.




(** C10, what the code does.  A game can start with the apple and the bad
    food on the cell right of the snake.  In the first pass the snake steps
    onto it, the apple raises [length] to 2, the bad food then finds
    [length > 1] and pops the only cell of the body: [positions] is empty
    and [get_head_position], called for the obstacle, raises
    [IndexError]. *)
Theorem bad_food_pop_empties_body :
  main_start (no_keys 389) fresh_world
  = Ok (start_with (340, 240) (340, 240) (0, 380) (recorded 1))
  ∧ (g1 ← step_snake pygame_keys (no_keys 389)
            (start_with (340, 240) (340, 240) (0, 380) (recorded 1));
     g2 ← check_apple (no_keys 389) g1;
     g3 ← check_bad_food (no_keys 389) g2;
     mret (Snake.length (snake g3), Snake.positions (snake g3),
           Snake.get_head_position (snake g3)))
    = Ok (1, [], Raise IndexError)
  ∧ tick pygame_keys (no_keys 389)
      (start_with (340, 240) (340, 240) (0, 380) (recorded 1))
    = Raise IndexError
  ∧ main pygame_keys (no_keys 389) [no_keys 389] fresh_world
    = Raise IndexError.
Proof.
  split; [exact main_start_coincident|].
  split; [vm_compute; reflexivity|].
  split; vm_compute; reflexivity.
Qed.

(** * Further properties of the code *)

(** ** The board and the free cells *)

Lemma size_list_to_set_le (l : list cell) :
  (size (list_to_set l : gset cell) ≤ List.length l)%nat.
Proof.
  induction l as [|x l IH]; [by rewrite list_to_set_nil, size_empty|].
  rewrite list_to_set_cons, size_union_alt, size_singleton.
  assert (size (list_to_set l ∖ ({[x]} : gset cell))
          ≤ size (list_to_set l : gset cell))%nat as Hle
    by (apply subseteq_size; intros c [Hc _]%elem_of_difference; exact Hc).
  simpl. lia.
Qed.

Lemma free_elem (X : gset cell) (l : list cell) :
  (List.length l < size X)%nat → ∃ c, c ∈ X ∧ c ∉ l.
Proof.
  intros Hlt.
  destruct (set_choose_or_empty (X ∖ list_to_set l)) as [[c Hc] | Hempty].
  - exists c. apply elem_of_difference in Hc as [Hc Hn].
    split; [exact Hc|]. intros Hin. apply Hn, elem_of_list_to_set, Hin.
  - assert (X ⊆ list_to_set l) as Hsub.
    { intros c Hc. destruct (decide (c ∈ (list_to_set l : gset cell))) as [|Hn];
        [assumption|].
      exfalso. apply (not_elem_of_empty (C:=gset cell) c), Hempty.
      apply elem_of_difference. split; assumption. }
    apply subseteq_size in Hsub. pose proof (size_list_to_set_le l). lia.
Qed.

Lemma size_ALL_CELLS : size ALL_CELLS = Z.to_nat (GRID_WIDTH * GRID_HEIGHT).
Proof. vm_compute. reflexivity. Qed.

Lemma cell_on_grid (x y : Z) :
  (x, y) ∈ ALL_CELLS ↔
  0 ≤ x < SCREEN_WIDTH ∧ 0 ≤ y < SCREEN_HEIGHT
  ∧ x `mod` GRID_SIZE = 0 ∧ y `mod` GRID_SIZE = 0.
Proof.
  rewrite elem_of_ALL_CELLS.
  unfold GRID_WIDTH, GRID_HEIGHT, SCREEN_WIDTH, SCREEN_HEIGHT, GRID_SIZE.
  split.
  - intros (i & j & Hi & Hj & [= -> ->]).
    change (640 / 20) with 32 in Hi. change (480 / 20) with 24 in Hj.
    rewrite !Z.mod_mul by lia. lia.
  - intros (Hx & Hy & Hmx & Hmy). exists (x / 20), (y / 20).
    change (640 / 20) with 32. change (480 / 20) with 24.
    split; [|split]; [| |f_equal]; Z.to_euclidean_division_equations; lia.
Qed.

(** X1. [ALL_CELLS] holds exactly the cells whose coordinates are multiples
    of [GRID_SIZE] inside the screen, and their number is [GRID_WIDTH] times
    [GRID_HEIGHT]. *)
Theorem ALL_CELLS_grid :
  (∀ x y : Z,
      (x, y) ∈ ALL_CELLS ↔
      0 ≤ x < SCREEN_WIDTH ∧ 0 ≤ y < SCREEN_HEIGHT
      ∧ x `mod` GRID_SIZE = 0 ∧ y `mod` GRID_SIZE = 0)
  ∧ size ALL_CELLS = Z.to_nat (GRID_WIDTH * GRID_HEIGHT).
Proof. split; [exact cell_on_grid | exact size_ALL_CELLS]. Qed.

(** X2. A snake body shorter than the number of board cells leaves a free
    cell, so [randomize_position] returns a cell of the board outside the
    body for every random number; this is so for the three kinds of
    object. *)
Theorem randomize_position_succeeds (snake_positions : list cell) (r : nat) :
  (List.length snake_positions < Z.to_nat (GRID_WIDTH * GRID_HEIGHT))%nat →
  (∃ p, Apple.randomize_position snake_positions r = Ok p
        ∧ p ∈ ALL_CELLS ∧ p ∉ snake_positions)
  ∧ (∃ p, BadFood.randomize_position snake_positions r = Ok p
          ∧ p ∈ ALL_CELLS ∧ p ∉ snake_positions)
  ∧ (∃ p, Obstacle.randomize_position snake_positions r = Ok p
          ∧ p ∈ ALL_CELLS ∧ p ∉ snake_positions).
Proof.
  intros Hlt. rewrite <- size_ALL_CELLS in Hlt.
  pose proof (free_elem ALL_CELLS snake_positions Hlt) as Hfree.
  unfold Apple.randomize_position, BadFood.randomize_position,
    Obstacle.randomize_position.
  split; [|split]; exact (choice_available snake_positions r Hfree).
Qed.

Lemma randomize_position_succeeds_witness :
  (∃ p, Apple.randomize_position [(320, 240)] 5 = Ok p
        ∧ p ∈ ALL_CELLS ∧ p ∉ [(320, 240)])
  ∧ (∃ p, BadFood.randomize_position [(320, 240)] 5 = Ok p
          ∧ p ∈ ALL_CELLS ∧ p ∉ [(320, 240)])
  ∧ (∃ p, Obstacle.randomize_position [(320, 240)] 5 = Ok p
          ∧ p ∈ ALL_CELLS ∧ p ∉ [(320, 240)]).
Proof.
  apply (randomize_position_succeeds [(320, 240)] 5).
  vm_compute. lia.
Defined.

(** X3. When the snake covers every cell of the board there is nothing to
    choose from and [randomize_position] raises [IndexError]. *)
Theorem randomize_position_full_board (snake_positions : list cell) (r : nat) :
  (∀ c, c ∈ ALL_CELLS → c ∈ snake_positions) →
  Apple.randomize_position snake_positions r = Raise IndexError
  ∧ BadFood.randomize_position snake_positions r = Raise IndexError
  ∧ Obstacle.randomize_position snake_positions r = Raise IndexError.
Proof.
  intros Hfull.
  assert (elements (get_available_positions snake_positions) = []) as Hnil.
  { apply elements_empty_iff. intros c. split; [|intros []%not_elem_of_empty].
    intros [Hc Hn]%elem_of_available. exfalso. exact (Hn (Hfull c Hc)). }
  unfold Apple.randomize_position, BadFood.randomize_position,
    Obstacle.randomize_position, choice.
  cbv zeta. rewrite Hnil. repeat split.
Qed.

Lemma randomize_position_full_board_witness :
  Apple.randomize_position (elements ALL_CELLS) 3 = Raise IndexError
  ∧ BadFood.randomize_position (elements ALL_CELLS) 3 = Raise IndexError
  ∧ Obstacle.randomize_position (elements ALL_CELLS) 3 = Raise IndexError.
Proof.
  apply (randomize_position_full_board (elements ALL_CELLS) 3).
  intros c Hc. apply elem_of_elements. exact Hc.
Defined.

Lemma choice_reaches {A : Type} (seq : list A) (x : A) :
  x ∈ seq → ∃ r, choice seq r = Ok x.
Proof.
  intros (i & Hi)%list_elem_of_lookup. exists i. unfold choice.
  rewrite Nat.mod_small by (by eapply lookup_lt_Some). by rewrite Hi.
Qed.

(** X4. Every free cell of the board can be drawn: for each cell of
    [ALL_CELLS] outside the snake some random number makes
    [randomize_position] return it. *)
Theorem randomize_position_reaches (snake_positions : list cell) (c : cell) :
  c ∈ ALL_CELLS → c ∉ snake_positions →
  (∃ r, Apple.randomize_position snake_positions r = Ok c)
  ∧ (∃ r, BadFood.randomize_position snake_positions r = Ok c)
  ∧ (∃ r, Obstacle.randomize_position snake_positions r = Ok c).
Proof.
  intros Hc Hn.
  assert (c ∈ elements (get_available_positions snake_positions)) as Hin.
  { apply elem_of_elements, elem_of_available. split; assumption. }
  unfold Apple.randomize_position, BadFood.randomize_position,
    Obstacle.randomize_position.
  split; [|split]; exact (choice_reaches _ c Hin).
Qed.

Lemma randomize_position_reaches_witness :
  (∃ r, Apple.randomize_position [(320, 240)] r = Ok (0, 0))
  ∧ (∃ r, BadFood.randomize_position [(320, 240)] r = Ok (0, 0))
  ∧ (∃ r, Obstacle.randomize_position [(320, 240)] r = Ok (0, 0)).
Proof.
  apply (randomize_position_reaches [(320, 240)] (0, 0)).
  - exact origin_in_ALL_CELLS.
  - apply (bool_decide_unpack _). vm_compute. exact I.
Defined.

(** ** The snake *)

Lemma next_head_on_grid (cur d : cell) :
  cur ∈ ALL_CELLS → Snake.next_head cur d ∈ ALL_CELLS.
Proof.
  destruct cur as [x y], d as [dx dy]. rewrite next_head_eq, !cell_on_grid.
  unfold SCREEN_WIDTH, SCREEN_HEIGHT, GRID_SIZE. intros (Hx & Hy & Hmx & Hmy).
  repeat split; Z.to_euclidean_division_equations; lia.
Qed.

Lemma next_head_moves (cur d : cell) :
  unit_direction d → Snake.next_head cur d ≠ cur.
Proof.
  destruct cur as [x y].
  intros [-> | [-> | [-> | ->]]]; unfold UP, DOWN, LEFT, RIGHT;
    rewrite next_head_eq; unfold SCREEN_WIDTH, SCREEN_HEIGHT, GRID_SIZE;
    intros [= Hx Hy]; Z.to_euclidean_division_equations; lia.
Qed.

Lemma elem_of_removelast {A : Type} (l : list A) (x : A) :
  x ∈ removelast l → x ∈ l.
Proof.
  destruct l as [|y l _] using rev_ind; [done|].
  rewrite removelast_last. intros Hx. apply elem_of_app. by left.
Qed.

Lemma NoDup_removelast {A : Type} (l : list A) :
  NoDup l → NoDup (removelast l).
Proof.
  destruct l as [|y l _] using rev_ind; [done|].
  rewrite removelast_last. by intros [? _]%NoDup_app.
Qed.

Lemma centre_on_grid : (SCREEN_WIDTH / 2, SCREEN_HEIGHT / 2) ∈ ALL_CELLS.
Proof.
  apply cell_on_grid. unfold SCREEN_WIDTH, SCREEN_HEIGHT, GRID_SIZE.
  repeat split; Z.to_euclidean_division_equations; lia.
Qed.

(** The two outcomes of a [move] that returns. *)
Lemma move_cases (s s' : Snake.t) :
  Snake.move s = Ok s' →
  ∃ cur rest,
    Snake.positions s = cur :: rest
    ∧ ((Snake.next_head cur (Snake.direction s) ∈ rest
        ∧ s' = Snake.__init__)
       ∨ ((Snake.next_head cur (Snake.direction s) ∉ rest)
          ∧ (∃ body l,
              s' = Snake.set_position
                     (Snake.set_body s
                        (Snake.next_head cur (Snake.direction s) :: body) l)
                     (Snake.next_head cur (Snake.direction s))
              ∧ (if bool_decide
                      (Z.of_nat (List.length (cur :: rest)) + 1
                       > Snake.length s)
                 then (body = removelast (cur :: rest)
                       ∧ l = last (cur :: rest))
                 else (body = cur :: rest ∧ l = None))))).
Proof.
  intros Hm. destruct (Snake.positions s) as [|cur rest] eqn:Hps.
  { unfold Snake.move, Snake.get_head_position in Hm. rewrite Hps in Hm.
    discriminate. }
  exists cur, rest. split; [reflexivity|].
  destruct (decide (Snake.next_head cur (Snake.direction s) ∈ rest))
    as [Hin | Hnin].
  - left. split; [exact Hin|].
    rewrite (move_collision s cur rest Hps Hin) in Hm. by injection Hm.
  - right. split; [exact Hnin|].
    unfold Snake.move, Snake.get_head_position in Hm. rewrite Hps in Hm.
    cbn [mbind result_bind drop] in Hm.
    rewrite bool_decide_eq_false_2 in Hm by exact Hnin.
    destruct (decide (Z.of_nat (List.length (cur :: rest)) + 1
                      > Snake.length s)) as [Hlen | Hlen].
    + rewrite (bool_decide_eq_true_2 _ Hlen).
      rewrite bool_decide_eq_true_2 in Hm by (cbn [List.length] in *; lia).
      unfold pop in Hm.
      destruct (last (Snake.next_head cur (Snake.direction s) :: cur :: rest))
        as [y|] eqn:Hl; [|discriminate].
      cbn [mbind result_bind mret result_ret] in Hm. injection Hm as <-.
      exists (removelast (cur :: rest)), (Some y). split; [reflexivity|].
      split; [reflexivity|]. rewrite <- Hl. reflexivity.
    + rewrite (bool_decide_eq_false_2 _ Hlen).
      rewrite bool_decide_eq_false_2 in Hm by (cbn [List.length] in *; lia).
      injection Hm as <-. exists (cur :: rest), None. done.
Qed.

Lemma move_total (s : Snake.t) :
  Snake.positions s ≠ [] →
  ∃ s', Snake.move s = Ok s'
        ∧ Snake.positions s' ≠ []
        ∧ Snake.get_head_position s' = Ok (Snake.position s').
Proof.
  destruct (Snake.positions s) as [|cur rest] eqn:Hps; [done|]. intros _.
  destruct (decide (Snake.next_head cur (Snake.direction s) ∈ rest))
    as [Hin | Hnin].
  - exists Snake.__init__. split; [by apply (move_collision s cur rest)|].
    split; [discriminate | reflexivity].
  - destruct (move_no_collision s cur rest Hps Hnin) as (body & l & Hm & _).
    eexists. split; [exact Hm|]. split; [discriminate | reflexivity].
Qed.

(** X5. [update_direction] uses up the queued direction: afterwards nothing
    is queued, the body and the length are as before, and a second call
    changes nothing. *)
Theorem update_direction_consumes (s : Snake.t) :
  Snake.next_direction (Snake.update_direction s) = None
  ∧ Snake.direction (Snake.update_direction s)
    = default (Snake.direction s) (Snake.next_direction s)
  ∧ Snake.positions (Snake.update_direction s) = Snake.positions s
  ∧ Snake.length (Snake.update_direction s) = Snake.length s
  ∧ Snake.update_direction (Snake.update_direction s)
    = Snake.update_direction s.
Proof.
  unfold Snake.update_direction.
  destruct (Snake.next_direction s) as [d|] eqn:Hd; cbn; rewrite ?Hd; done.
Qed.

(** X6. [move] raises [IndexError] exactly on a snake without cells; on
    every other snake it returns a snake whose body is not empty and whose
    [position] attribute is its head. *)
Theorem move_defined (s : Snake.t) :
  (Snake.positions s = [] ∧ Snake.move s = Raise IndexError)
  ∨ (Snake.positions s ≠ []
     ∧ ∃ s', Snake.move s = Ok s'
             ∧ Snake.positions s' ≠ []
             ∧ Snake.get_head_position s' = Ok (Snake.position s')).
Proof.
  destruct (Snake.positions s) as [|cur rest] eqn:Hps.
  - left. split; [reflexivity|].
    unfold Snake.move, Snake.get_head_position. by rewrite Hps.
  - right. split; [discriminate|]. apply move_total. by rewrite Hps.
Qed.

(** X7. A snake at its full length ([length <= len(positions)]) that does
    not run into itself shifts by one cell: the new head is put in front,
    the last cell is dropped and remembered in [last], and the length, the
    direction and the queued direction stay. *)
Theorem move_shifts
    (s : Snake.t) (cur t : cell) (body : list cell) :
  Snake.positions s = body ++ [t] →
  Snake.get_head_position s = Ok cur →
  Snake.length s ≤ Z.of_nat (List.length (Snake.positions s)) →
  Snake.next_head cur (Snake.direction s) ∉ drop 1 (Snake.positions s) →
  ∃ s', Snake.move s = Ok s'
        ∧ Snake.positions s' = Snake.next_head cur (Snake.direction s) :: body
        ∧ Snake.last s' = Some t
        ∧ Snake.position s' = Snake.next_head cur (Snake.direction s)
        ∧ Snake.length s' = Snake.length s
        ∧ Snake.direction s' = Snake.direction s
        ∧ Snake.next_direction s' = Snake.next_direction s.
Proof.
  intros Hps Hcur Hlen Hnin.
  destruct (move_total s) as (s' & Hm & _).
  { rewrite Hps. by destruct body. }
  exists s'. split; [exact Hm|].
  apply move_cases in Hm as (cur' & rest & Hps' & Hcase).
  unfold Snake.get_head_position in Hcur. rewrite Hps' in Hcur, Hnin, Hlen.
  injection Hcur as ->. cbn [drop] in Hnin.
  destruct Hcase as [[Hin _] | (_ & b & l & -> & Hb)]; [done|].
  rewrite bool_decide_eq_true_2 in Hb by lia. destruct Hb as [-> ->].
  rewrite <- Hps', Hps, removelast_last, last_snoc. done.
Qed.

Lemma move_shifts_witness :
  ∃ s', Snake.move edge_snake = Ok s'
        ∧ Snake.positions s'
          = Snake.next_head (620, 100) (Snake.direction edge_snake)
            :: [(620, 100)]
        ∧ Snake.last s' = Some (600, 100)
        ∧ Snake.position s'
          = Snake.next_head (620, 100) (Snake.direction edge_snake)
        ∧ Snake.length s' = Snake.length edge_snake
        ∧ Snake.direction s' = Snake.direction edge_snake
        ∧ Snake.next_direction s' = Snake.next_direction edge_snake.
Proof.
  apply (move_shifts edge_snake (620, 100) (600, 100) [(620, 100)]).
  - reflexivity.
  - reflexivity.
  - vm_compute. discriminate.
  - apply (bool_decide_unpack _). vm_compute. exact I.
Defined.

(** X8. A snake shorter than its length ([len(positions) < length], the
    pass after an apple) that does not run into itself grows: the new head
    is put in front, no cell is dropped and [last] is [None]. *)
Theorem move_grows (s : Snake.t) (cur : cell) :
  Snake.get_head_position s = Ok cur →
  Z.of_nat (List.length (Snake.positions s)) < Snake.length s →
  Snake.next_head cur (Snake.direction s) ∉ drop 1 (Snake.positions s) →
  ∃ s', Snake.move s = Ok s'
        ∧ Snake.positions s'
          = Snake.next_head cur (Snake.direction s) :: Snake.positions s
        ∧ Snake.last s' = None
        ∧ Snake.position s' = Snake.next_head cur (Snake.direction s)
        ∧ Snake.length s' = Snake.length s
        ∧ Snake.direction s' = Snake.direction s
        ∧ Snake.next_direction s' = Snake.next_direction s.
Proof.
  intros Hcur Hlen Hnin.
  destruct (move_total s) as (s' & Hm & _).
  { unfold Snake.get_head_position in Hcur.
    by destruct (Snake.positions s). }
  exists s'. split; [exact Hm|].
  apply move_cases in Hm as (cur' & rest & Hps' & Hcase).
  unfold Snake.get_head_position in Hcur. rewrite Hps' in Hcur, Hnin, Hlen.
  injection Hcur as ->. cbn [drop] in Hnin.
  destruct Hcase as [[Hin _] | (_ & b & l & -> & Hb)]; [done|].
  rewrite bool_decide_eq_false_2 in Hb by lia. destruct Hb as [-> ->].
  rewrite Hps'. done.
Qed.

Lemma move_grows_witness :
  ∃ s', Snake.move (stepped_snake 2 [(340, 240)]) = Ok s'
        ∧ Snake.positions s'
          = Snake.next_head (340, 240) RIGHT :: [(340, 240)]
        ∧ Snake.last s' = None
        ∧ Snake.position s' = Snake.next_head (340, 240) RIGHT
        ∧ Snake.length s' = 2
        ∧ Snake.direction s' = RIGHT
        ∧ Snake.next_direction s' = None.
Proof.
  apply (move_grows (stepped_snake 2 [(340, 240)]) (340, 240)).
  - reflexivity.
  - vm_compute. reflexivity.
  - apply (bool_decide_unpack _). vm_compute. exact I.
Defined.

Lemma move_preserves_on_grid (s s' : Snake.t) :
  on_grid (Snake.positions s) →
  Snake.move s = Ok s' →
  on_grid (Snake.positions s').
Proof.
  intros Hgrid (cur & rest & Hps & Hcase)%move_cases c.
  destruct Hcase as [[_ ->] | (_ & body & l & -> & Hbody)].
  - intros ->%list_elem_of_singleton. exact centre_on_grid.
  - cbn [Snake.set_position Snake.set_body Snake.positions].
    intros [-> | Hc]%elem_of_cons.
    + apply next_head_on_grid, Hgrid. rewrite Hps. apply list_elem_of_here.
    + apply Hgrid. rewrite Hps.
      destruct (bool_decide _); destruct Hbody as [-> _];
        [by apply elem_of_removelast | exact Hc].
Qed.

Lemma move_preserves_NoDup (s s' : Snake.t) :
  NoDup (Snake.positions s) →
  unit_direction (Snake.direction s) →
  Snake.move s = Ok s' →
  NoDup (Snake.positions s').
Proof.
  intros Hnd Hdir (cur & rest & Hps & Hcase)%move_cases.
  destruct Hcase as [[_ ->] | (Hnin & body & l & -> & Hbody)].
  - apply NoDup_singleton.
  - cbn [Snake.set_position Snake.set_body Snake.positions].
    rewrite Hps in Hnd.
    assert (Snake.next_head cur (Snake.direction s) ∉ cur :: rest) as Hnew.
    { intros [Heq | Hin]%elem_of_cons; [|done].
      by apply (next_head_moves cur (Snake.direction s)). }
    apply NoDup_cons. destruct (bool_decide _); destruct Hbody as [-> _].
    + split; [|by apply NoDup_removelast].
      intros Hin. by apply Hnew, elem_of_removelast.
    + done.
Qed.

(** X9. [move] keeps the snake on the board: when every cell of the body is
    a cell of [ALL_CELLS], so is every cell after the move, for any
    direction. *)
Theorem move_stays_on_grid (s s' : Snake.t) :
  on_grid (Snake.positions s) →
  Snake.move s = Ok s' →
  on_grid (Snake.positions s').
Proof. apply move_preserves_on_grid. Qed.

Lemma move_stays_on_grid_witness :
  on_grid (Snake.positions (stepped_snake 1 [(340, 240)])).
Proof.
  apply (move_stays_on_grid Snake.__init__ (stepped_snake 1 [(340, 240)])).
  - intros c ->%list_elem_of_singleton. exact centre_on_grid.
  - vm_compute. reflexivity.
Defined.

(** X10. [move] keeps the body free of repeated cells when the direction is
    one of [UP], [DOWN], [LEFT], [RIGHT]. *)
Theorem move_keeps_body_distinct (s s' : Snake.t) :
  NoDup (Snake.positions s) →
  unit_direction (Snake.direction s) →
  Snake.move s = Ok s' →
  NoDup (Snake.positions s').
Proof. apply move_preserves_NoDup. Qed.

Lemma move_keeps_body_distinct_witness :
  NoDup (Snake.positions wrapped_snake).
Proof.
  apply (move_keeps_body_distinct edge_snake wrapped_snake).
  - apply (bool_decide_unpack _). vm_compute. exact I.
  - right. right. right. reflexivity.
  - vm_compute. reflexivity.
Defined.

(** ** Keys *)

Lemma handle_event_frame (K : keys) (e : event) (s s' : Snake.t) (v v' : Z) :
  handle_event K e (s, v) = Ok (s', v') →
  s' = Snake.set_next_direction s (Snake.next_direction s').
Proof.
  unfold handle_event. destruct s. destruct e as [|key|]; [discriminate|..].
  - repeat case_bool_decide; try discriminate; intros [= <- <-]; reflexivity.
  - intros [= <- <-]; reflexivity.
Qed.

Lemma handle_keys_loop_app (K : keys) (evs1 evs2 : list event)
    (st : Snake.t * Z) :
  handle_keys_loop K (evs1 ++ evs2) st
  = handle_keys_loop K evs1 st ≫= handle_keys_loop K evs2.
Proof.
  revert st. induction evs1 as [|e evs1 IH]; intros st; [reflexivity|].
  cbn [app handle_keys_loop].
  destruct (handle_event K e st) as [st'|x]; [apply IH | reflexivity].
Qed.

Lemma handle_keys_only_queues
    (K : keys) (evs : list event) (s s' : Snake.t) (v v' : Z) :
  handle_keys K evs s v = Ok (s', v') →
  s' = Snake.set_next_direction s (Snake.next_direction s').
Proof.
  unfold handle_keys. revert s v.
  induction evs as [|e evs IH]; intros s v; cbn [handle_keys_loop].
  - intros [= <- <-]. by destruct s.
  - intros ([s1 v1] & H1 & H2)%bind_Ok.
    apply handle_event_frame in H1. apply IH in H2.
    rewrite H2, H1. reflexivity.
Qed.

(** X11. [handle_keys] touches nothing of the snake but [next_direction]:
    the body, the length, the current direction and the other attributes
    are as before, whatever the events. *)
Theorem handle_keys_frame
    (K : keys) (evs : list event) (s s' : Snake.t) (v v' : Z) :
  handle_keys K evs s v = Ok (s', v') →
  s' = Snake.set_next_direction s (Snake.next_direction s').
Proof. apply handle_keys_only_queues. Qed.

Lemma handle_keys_frame_witness :
  Snake.set_next_direction Snake.__init__ (Some LEFT)
  = Snake.set_next_direction Snake.__init__
      (Snake.next_direction
         (Snake.set_next_direction Snake.__init__ (Some LEFT))).
Proof.
  apply (handle_keys_frame pygame_keys
           [KEYDOWN 113; KEYDOWN 1073741904; OTHER]
           Snake.__init__ _ 10 12).
  vm_compute. reflexivity.
Defined.

(** X12. The speed that [handle_keys] returns is at least 1 when the speed
    it was given is at least 1, whatever the events. *)
Theorem handle_keys_speed_floor
    (K : keys) (evs : list event) (s s' : Snake.t) (v v' : Z) :
  1 ≤ v → handle_keys K evs s v = Ok (s', v') → 1 ≤ v'.
Proof.
  unfold handle_keys. revert s v.
  induction evs as [|e evs IH]; intros s v Hv; cbn [handle_keys_loop].
  - intros [= _ <-]. exact Hv.
  - intros ([s1 v1] & H1 & H2)%bind_Ok. apply (IH s1 v1); [|exact H2].
    unfold handle_event in H1. destruct e as [|key|]; [discriminate|..].
    + repeat case_bool_decide; try discriminate; injection H1 as _ <-; lia.
    + injection H1 as _ <-. exact Hv.
Qed.

Lemma handle_keys_speed_floor_witness :
  1 ≤ 1.
Proof.
  apply (handle_keys_speed_floor pygame_keys
           [KEYDOWN 119; KEYDOWN 119] Snake.__init__ Snake.__init__ 3 1).
  - lia.
  - vm_compute. reflexivity.
Defined.

Lemma handle_keys_quit_or_return
    (K : keys) (evs : list event) (s : Snake.t) (v : Z) :
  (existsb (quits K) evs = true →
   handle_keys K evs s v = Raise SystemExit)
  ∧ (existsb (quits K) evs = false →
     ∃ s' v', handle_keys K evs s v = Ok (s', v')).
Proof.
  unfold handle_keys. revert s v.
  induction evs as [|e evs IH]; intros s v; cbn [handle_keys_loop existsb].
  - split; [discriminate | by eexists _, _].
  - destruct e as [|key|]; cbn [quits handle_event orb].
    + split; [reflexivity | discriminate].
    + case_bool_decide; cbn [orb]; [split; [reflexivity | discriminate]|].
      repeat case_bool_decide; apply IH.
    + apply IH.
Qed.

(** X13. [handle_keys] raises [SystemExit] when the queue holds a [QUIT]
    event or a press of Escape, and returns otherwise; it raises nothing
    else. *)
Theorem handle_keys_quits
    (K : keys) (evs : list event) (s : Snake.t) (v : Z) :
  (existsb (quits K) evs = true →
   handle_keys K evs s v = Raise SystemExit)
  ∧ (existsb (quits K) evs = false →
     ∃ s' v', handle_keys K evs s v = Ok (s', v')).
Proof. apply handle_keys_quit_or_return. Qed.

Lemma handle_keys_quits_witness :
  handle_keys pygame_keys [KEYDOWN 113; KEYDOWN 27; KEYDOWN 119]
    Snake.__init__ 10 = Raise SystemExit
  ∧ ∃ s' v', handle_keys pygame_keys [KEYDOWN 113; OTHER] Snake.__init__ 10
             = Ok (s', v').
Proof.
  split.
  - apply (handle_keys_quits pygame_keys). vm_compute. reflexivity.
  - apply (handle_keys_quits pygame_keys). vm_compute. reflexivity.
Defined.

Lemma direction_map_arrows (K : keys) :
  keys_distinct K →
  direction_map K !! K_UP K = Some UP
  ∧ direction_map K !! K_DOWN K = Some DOWN
  ∧ direction_map K !! K_LEFT K = Some LEFT
  ∧ direction_map K !! K_RIGHT K = Some RIGHT.
Proof.
  unfold keys_distinct, direction_map. rewrite !NoDup_cons.
  intros (_ & _ & _ & Hu & Hd & Hl & _).
  repeat split.
  - do 3 (rewrite lookup_insert_ne by (intros Heq; set_solver)).
    by rewrite lookup_insert_eq.
  - do 2 (rewrite lookup_insert_ne by (intros Heq; set_solver)).
    by rewrite lookup_insert_eq.
  - rewrite lookup_insert_ne by (intros Heq; set_solver).
    by rewrite lookup_insert_eq.
  - by rewrite lookup_insert_eq.
Qed.

Lemma handle_event_arrow (K : keys) (key : Z) (d : cell) (s : Snake.t) (v : Z) :
  key ≠ K_ESCAPE K → key ≠ K_q K → key ≠ K_w K →
  direction_map K !! key = Some d →
  handle_event K (KEYDOWN key) (s, v)
  = Ok (Snake.set_next_direction s (Some d), v).
Proof.
  intros Hesc Hq Hw Hd. unfold handle_event.
  rewrite !bool_decide_eq_false_2 by done. rewrite Hd. reflexivity.
Qed.

(** X14. With seven different key codes, an arrow key pressed last in a
    pass queues its direction: Up queues [UP], Down [DOWN], Left [LEFT] and
    Right [RIGHT], whatever was queued by the earlier events; the speed is
    that of the earlier events. *)
Theorem last_arrow_is_queued
    (K : keys) (evs : list event) (s s1 : Snake.t) (v v1 : Z) :
  keys_distinct K →
  handle_keys K evs s v = Ok (s1, v1) →
  handle_keys K (evs ++ [KEYDOWN (K_UP K)]) s v
  = Ok (Snake.set_next_direction s1 (Some UP), v1)
  ∧ handle_keys K (evs ++ [KEYDOWN (K_DOWN K)]) s v
    = Ok (Snake.set_next_direction s1 (Some DOWN), v1)
  ∧ handle_keys K (evs ++ [KEYDOWN (K_LEFT K)]) s v
    = Ok (Snake.set_next_direction s1 (Some LEFT), v1)
  ∧ handle_keys K (evs ++ [KEYDOWN (K_RIGHT K)]) s v
    = Ok (Snake.set_next_direction s1 (Some RIGHT), v1).
Proof.
  intros Hk Hevs. unfold handle_keys in *.
  destruct (direction_map_arrows K Hk) as (Hu & Hd & Hl & Hr).
  unfold keys_distinct in Hk. rewrite !NoDup_cons in Hk.
  destruct Hk as (He & Hq & Hw & _).
  rewrite !handle_keys_loop_app, Hevs. cbn [mbind result_bind handle_keys_loop].
  rewrite (handle_event_arrow K (K_UP K) UP),
    (handle_event_arrow K (K_DOWN K) DOWN),
    (handle_event_arrow K (K_LEFT K) LEFT),
    (handle_event_arrow K (K_RIGHT K) RIGHT);
    try done; intros Heq; set_solver.
Qed.

Lemma pygame_keys_distinct : keys_distinct pygame_keys.
Proof. apply (bool_decide_unpack _). vm_compute. exact I. Qed.

Lemma last_arrow_is_queued_witness :
  handle_keys pygame_keys
    ([KEYDOWN 1073741904; KEYDOWN 113] ++ [KEYDOWN (K_UP pygame_keys)])
    Snake.__init__ 10
  = Ok (Snake.set_next_direction
          (Snake.set_next_direction Snake.__init__ (Some LEFT)) (Some UP), 12)
  ∧ handle_keys pygame_keys
      ([KEYDOWN 1073741904; KEYDOWN 113] ++ [KEYDOWN (K_DOWN pygame_keys)])
      Snake.__init__ 10
    = Ok (Snake.set_next_direction
            (Snake.set_next_direction Snake.__init__ (Some LEFT)) (Some DOWN),
          12)
  ∧ handle_keys pygame_keys
      ([KEYDOWN 1073741904; KEYDOWN 113] ++ [KEYDOWN (K_LEFT pygame_keys)])
      Snake.__init__ 10
    = Ok (Snake.set_next_direction
            (Snake.set_next_direction Snake.__init__ (Some LEFT)) (Some LEFT),
          12)
  ∧ handle_keys pygame_keys
      ([KEYDOWN 1073741904; KEYDOWN 113] ++ [KEYDOWN (K_RIGHT pygame_keys)])
      Snake.__init__ 10
    = Ok (Snake.set_next_direction
            (Snake.set_next_direction Snake.__init__ (Some LEFT)) (Some RIGHT),
          12).
Proof.
  apply (last_arrow_is_queued pygame_keys [KEYDOWN 1073741904; KEYDOWN 113]).
  - exact pygame_keys_distinct.
  - vm_compute. reflexivity.
Defined.

(** X15. Pressing Q [n] times in one pass raises the speed by [2n];
    pressing W [n] times lowers a speed of at least 1 by [2n] but not below
    1.  The snake is left as it was. *)
Theorem repeated_speed_keys (K : keys) (n : nat) (s : Snake.t) (v : Z) :
  K_q K ≠ K_ESCAPE K → K_w K ≠ K_ESCAPE K → K_w K ≠ K_q K →
  1 ≤ v →
  handle_keys K (replicate n (KEYDOWN (K_q K))) s v
  = Ok (s, v + 2 * Z.of_nat n)
  ∧ handle_keys K (replicate n (KEYDOWN (K_w K))) s v
    = Ok (s, Z.max 1 (v - 2 * Z.of_nat n)).
Proof.
  intros Hq Hw Hwq Hv. unfold handle_keys. split.
  - revert v Hv. induction n as [|n IH]; intros v Hv;
      cbn [replicate handle_keys_loop].
    + cbn. do 2 f_equal. lia.
    + unfold handle_event.
      rewrite (bool_decide_eq_false_2 _ Hq), bool_decide_eq_true_2 by done.
      cbn [mret result_ret mbind result_bind]. rewrite IH by lia.
      do 2 f_equal. lia.
  - revert v Hv. induction n as [|n IH]; intros v Hv;
      cbn [replicate handle_keys_loop].
    + cbn. do 2 f_equal. lia.
    + unfold handle_event.
      rewrite (bool_decide_eq_false_2 _ Hw), (bool_decide_eq_false_2 _ Hwq),
        bool_decide_eq_true_2 by done.
      cbn [mret result_ret mbind result_bind]. rewrite IH by lia.
      do 2 f_equal. lia.
Qed.

Lemma repeated_speed_keys_witness :
  handle_keys pygame_keys (replicate 6 (KEYDOWN (K_q pygame_keys)))
    Snake.__init__ 10 = Ok (Snake.__init__, 10 + 2 * Z.of_nat 6)
  ∧ handle_keys pygame_keys (replicate 6 (KEYDOWN (K_w pygame_keys)))
      Snake.__init__ 10 = Ok (Snake.__init__, Z.max 1 (10 - 2 * Z.of_nat 6)).
Proof.
  apply (repeated_speed_keys pygame_keys 6 Snake.__init__ 10).
  - vm_compute. discriminate.
  - vm_compute. discriminate.
  - vm_compute. discriminate.
  - lia.
Defined.

(** ** The high-score file *)

Lemma append_cons (c : ascii) (s t : string) :
  String.append (String c s) t = String c (String.append s t).
Proof. reflexivity. Qed.

Lemma lstrip_blank_app (pre s : string) :
  all_space pre = true → lstrip (String.append pre s) = lstrip s.
Proof.
  induction pre as [|c pre IH]; [reflexivity|].
  rewrite append_cons. cbn [all_space lstrip].
  intros [Hc Hpre]%andb_true_iff. rewrite Hc. by apply IH.
Qed.

Lemma rstrip_blank (s : string) : all_space s = true → rstrip s = EmptyString.
Proof.
  induction s as [|c s IH]; [reflexivity|]. cbn [all_space rstrip].
  intros [Hc Hs]%andb_true_iff. by rewrite (IH Hs), Hc.
Qed.

Lemma rstrip_app_blank (s post : string) :
  all_space post = true → rstrip (String.append s post) = rstrip s.
Proof.
  intros Hpost. induction s as [|c s IH]; [by apply rstrip_blank|].
  rewrite append_cons. cbn [rstrip]. by rewrite IH.
Qed.

Lemma str_head (v : Z) :
  ∃ c t, str v = String c t ∧ is_space c = false.
Proof.
  unfold str. destruct (to_int_digits v) as (d & Hd & [-> | ->]);
    cbn [NilZero.string_of_int]; [|by eexists _, _].
  destruct d; try congruence; by eexists _, _.
Qed.

Lemma lstrip_str_app (v : Z) (post : string) :
  lstrip (String.append (str v) post) = String.append (str v) post.
Proof.
  destruct (str_head v) as (c & t & -> & Hc).
  rewrite append_cons. cbn [lstrip]. by rewrite Hc.
Qed.

Lemma rstrip_str (v : Z) : rstrip (str v) = str v.
Proof.
  pose proof (strip_str v) as Hs. unfold strip in Hs.
  destruct (str_head v) as (c & t & Heq & Hc). rewrite Heq in Hs |- *.
  cbn [lstrip] in Hs. rewrite Hc in Hs. exact Hs.
Qed.

Lemma change_title_total (n : Z) (w : world) :
  ∃ w', change_title n w = Ok w'.
Proof.
  destruct (load_total (high_score_file w)) as [hs Hload].
  unfold change_title. rewrite Hload. cbn [mbind result_bind].
  case_bool_decide; by eexists.
Qed.


(** X17. [save_high_score(v)] followed by [load_high_score()] returns [v]
    for every integer [v], negative ones included, whatever the file held
    before. *)
Theorem save_then_load_any_integer (v : Z) (f : file) :
  load_high_score (save_high_score v f) = Ok v.
Proof.
  unfold save_high_score, load_high_score. by rewrite strip_str, int_str.
Qed.

(** X18. White space around the number in the file does not matter:
    [load_high_score] returns [v] for a file that holds [str(v)] between
    any two runs of white space, such as a trailing newline. *)
Theorem load_ignores_surrounding_space (v : Z) (pre post : string) :
  all_space pre = true → all_space post = true →
  load_high_score (Some (String.append pre (String.append (str v) post)))
  = Ok v.
Proof.
  intros Hpre Hpost. unfold load_high_score.
  assert (strip (String.append pre (String.append (str v) post)) = str v)
    as ->.
  { unfold strip. rewrite (lstrip_blank_app _ _ Hpre), lstrip_str_app,
      (rstrip_app_blank _ _ Hpost). apply rstrip_str. }
  by rewrite int_str.
Qed.

Lemma load_ignores_surrounding_space_witness :
  load_high_score
    (Some (String.append " "
             (String.append (str 12)
                (String (ascii_of_nat 10) EmptyString))))
  = Ok 12.
Proof.
  apply (load_ignores_surrounding_space 12 " "
           (String (ascii_of_nat 10) EmptyString)).
  - reflexivity.
  - reflexivity.
Defined.

(** X19. A file that is empty or holds only white space gives the record
    0. *)
Theorem load_blank_file (text : string) :
  all_space text = true → load_high_score (Some text) = Ok 0.
Proof.
  intros Hblank. unfold load_high_score.
  assert (lstrip text = EmptyString) as Hl.
  { induction text as [|c t IH]; [reflexivity|]. cbn [all_space lstrip] in *.
    apply andb_true_iff in Hblank as [Hc Ht]. rewrite Hc. by apply IH. }
  unfold strip. rewrite Hl. reflexivity.
Qed.

Lemma load_blank_file_witness :
  load_high_score (Some EmptyString) = Ok 0.
Proof. apply (load_blank_file EmptyString). reflexivity. Defined.

(** ** The passes of the loop *)

Lemma choice_Ok_elem {A : Type} (seq : list A) (r : nat) (x : A) :
  choice seq r = Ok x → x ∈ seq.
Proof.
  unfold choice. destruct (seq !! _) as [y|] eqn:Hy; [|discriminate].
  intros [= <-]. by eapply list_elem_of_lookup_2.
Qed.

Lemma randomize_inv (snake_positions : list cell) (r : nat) (p : cell) :
  choice (elements (get_available_positions snake_positions)) r = Ok p →
  p ∈ ALL_CELLS ∧ p ∉ snake_positions.
Proof.
  intros Hin%choice_Ok_elem. apply elem_of_elements in Hin.
  apply elem_of_available. exact Hin.
Qed.

Lemma randomize_total (snake_positions : list cell) (r : nat) :
  Z.of_nat (List.length snake_positions) < board_size →
  ∃ p, choice (elements (get_available_positions snake_positions)) r = Ok p.
Proof.
  intros Hlt.
  assert (List.length snake_positions < size ALL_CELLS)%nat as Hlt'.
  { rewrite size_ALL_CELLS. unfold board_size in Hlt. lia. }
  destruct (choice_available snake_positions r
              (free_elem ALL_CELLS snake_positions Hlt')) as (p & Hp & _).
  by exists p.
Qed.

Lemma relocate_inv (randomize : list cell → nat → result cell)
    (snake_positions : list cell) (r : nat) (o o' : GameObject.t) :
  (∀ sp n, randomize sp n
           = choice (elements (get_available_positions sp)) n) →
  relocate randomize snake_positions r o = Ok o' →
  GameObject.position o' ∈ ALL_CELLS
  ∧ (GameObject.position o' ∉ snake_positions)
  ∧ GameObject.body_color o' = GameObject.body_color o.
Proof.
  intros Hrand. unfold relocate. rewrite Hrand.
  intros (p & Hp & [= <-])%bind_Ok.
  apply randomize_inv in Hp as [Hin Hout].
  split; [exact Hin|]. split; [exact Hout | reflexivity].
Qed.

Lemma relocate_total (randomize : list cell → nat → result cell)
    (snake_positions : list cell) (r : nat) (o : GameObject.t) :
  (∀ sp n, randomize sp n
           = choice (elements (get_available_positions sp)) n) →
  Z.of_nat (List.length snake_positions) < board_size →
  ∃ o', relocate randomize snake_positions r o = Ok o'.
Proof.
  intros Hrand (p & Hp)%(randomize_total _ r). unfold relocate.
  rewrite Hrand, Hp. by eexists.
Qed.

Lemma check_apple_cases (i : tick_input) (g g' : game) :
  check_apple i g = Ok g' →
  ∃ h, Snake.get_head_position (snake g) = Ok h
    ∧ ((h ≠ GameObject.position (apple g) ∧ g' = g)
       ∨ (h = GameObject.position (apple g)
          ∧ ∃ a,
              relocate Apple.randomize_position (Snake.positions (snake g))
                (r_apple i) (apple g) = Ok a
              ∧ g' = {| snake := Snake.set_length (snake g)
                                   (Snake.length (snake g) + 1);
                        apple := a; bad_food := bad_food g;
                        obstacle := obstacle g;
                        current_speed := current_speed g;
                        env := env g |})).
Proof.
  unfold check_apple. intros (h & Hh & Hrest)%bind_Ok. exists h.
  split; [exact Hh|]. case_bool_decide as Hhit.
  - right. split; [exact Hhit|].
    apply bind_Ok in Hrest as (a & Ha & [= <-]). exists a.
    split; [exact Ha | reflexivity].
  - left. injection Hrest as <-. split; [exact Hhit | reflexivity].
Qed.

Lemma check_bad_food_cases (i : tick_input) (g g' : game) :
  check_bad_food i g = Ok g' →
  ∃ h, Snake.get_head_position (snake g) = Ok h
    ∧ ((h ≠ GameObject.position (bad_food g) ∧ g' = g)
       ∨ (h = GameObject.position (bad_food g)
          ∧ ∃ s' w' b,
              relocate BadFood.randomize_position (Snake.positions s')
                (r_bad_food i) (bad_food g) = Ok b
              ∧ g' = {| snake := s'; apple := apple g; bad_food := b;
                        obstacle := obstacle g;
                        current_speed := current_speed g; env := w' |}
              ∧ (((Snake.length (snake g) > 1)
                  ∧ (∃ x, pop (Snake.positions (snake g))
                          = Ok (Snake.positions s', x))
                  ∧ s' = Snake.set_body
                           (Snake.set_length (snake g)
                              (Snake.length (snake g) - 1))
                           (Snake.positions s') (Snake.last (snake g))
                  ∧ w' = env g)
                 ∨ (Snake.length (snake g) ≤ 1
                    ∧ change_title (Snake.length (snake g)) (env g) = Ok w'
                    ∧ s' = Snake.__init__)))).
Proof.
  unfold check_bad_food. intros (h & Hh & Hrest)%bind_Ok. exists h.
  split; [exact Hh|]. case_bool_decide as Hhit.
  - right. split; [exact Hhit|].
    apply bind_Ok in Hrest as ([s' w'] & Hbody & Hrest).
    apply bind_Ok in Hrest as (b & Hb & [= <-]).
    exists s', w', b. split; [exact Hb|]. split; [reflexivity|].
    clear Hb. case_bool_decide as Hlen.
    + left. apply bind_Ok in Hbody as ([ps x] & Hpop & [= <- <-]).
      cbn [Snake.set_length Snake.positions Snake.set_body] in *.
      split; [exact Hlen|]. split; [exists x; exact Hpop|].
      split; reflexivity.
    + right. apply bind_Ok in Hbody as (w1 & Hw & [= <- <-]).
      split; [lia|]. split; [exact Hw | reflexivity].
  - left. injection Hrest as <-. split; [exact Hhit | reflexivity].
Qed.

Lemma check_obstacle_cases (i : tick_input) (g g' : game) :
  check_obstacle i g = Ok g' →
  ∃ h, Snake.get_head_position (snake g) = Ok h
    ∧ ((h ≠ GameObject.position (obstacle g) ∧ g' = g)
       ∨ (h = GameObject.position (obstacle g)
          ∧ ∃ w' o,
              change_title (Snake.length (snake g)) (env g) = Ok w'
              ∧ relocate Obstacle.randomize_position
                  (Snake.positions Snake.__init__) (r_obstacle i)
                  (obstacle g) = Ok o
              ∧ g' = {| snake := Snake.__init__; apple := apple g;
                        bad_food := bad_food g; obstacle := o;
                        current_speed := current_speed g; env := w' |})).
Proof.
  unfold check_obstacle. intros (h & Hh & Hrest)%bind_Ok. exists h.
  split; [exact Hh|]. case_bool_decide as Hhit.
  - right. split; [exact Hhit|]. apply bind_Ok in Hrest as (w' & Hw & Hrest).
    apply bind_Ok in Hrest as (o & Ho & [= <-]). exists w', o.
    split; [exact Hw|]. split; [exact Ho | reflexivity].
  - left. injection Hrest as <-. split; [exact Hhit | reflexivity].
Qed.

Lemma pop_removelast {A : Type} (l ps : list A) (x : A) :
  pop l = Ok (ps, x) → ps = removelast l ∧ l = ps ++ [x].
Proof.
  unfold pop. destruct (last l) as [y|] eqn:Hl; [|discriminate].
  intros [= <- <-]. apply last_Some in Hl as [l' ->].
  by rewrite removelast_last.
Qed.

(** *** Sizes *)

Lemma move_sizes (s s' : Snake.t) :
  1 ≤ Snake.length s → Snake.length s ≤ body_length s + 1 →
  Snake.move s = Ok s' →
  Snake.positions s' ≠ [] ∧ 1 ≤ Snake.length s'
  ∧ Snake.length s' ≤ body_length s'
  ∧ body_length s' ≤ body_length s + 1.
Proof.
  unfold body_length. intros H1 Hle (cur & rest & Hps & Hcase)%move_cases.
  rewrite Hps in *.
  destruct Hcase as [[_ ->] | (_ & body & l & -> & Hbody)].
  - cbn. repeat split; [done|lia..].
  - cbn [Snake.set_position Snake.set_body Snake.positions Snake.length].
    split; [done|]. split; [done|].
    case_bool_decide as Hlen; destruct Hbody as [-> _].
    + destruct (pop_cons cur rest) as (y & Hy). apply pop_length in Hy.
      cbn [List.length] in *. lia.
    + cbn [List.length] in *. lia.
Qed.

Lemma tick_sizes (K : keys) (i : tick_input) (g g' : game) :
  sizes_ok (snake g) → tick K i g = Ok g' → sizes_ok (snake g').
Proof.
  intros (_ & H1 & Hle) (g1 & g2 & g3 & Hs & Ha & Hb & Ho)%tick_inv.
  apply step_snake_inv in Hs as (s1 & v & Hk & Hm & _).
  apply handle_keys_body in Hk as [Hps Hlen].
  destruct (update_direction_body s1) as [Hps' Hlen'].
  apply move_sizes in Hm as (Hne1 & Hone1 & Hle1 & _);
    [|unfold body_length in *; rewrite ?Hps', ?Hlen', ?Hps, ?Hlen; done..].
  assert (1 ≤ Snake.length (snake g2)
          ∧ Snake.length (snake g2) ≤ body_length (snake g2) + 1) as [H2 Hle2].
  { apply check_apple_cases in Ha as (h & _ & [[_ ->] | (_ & a & _ & ->)]);
      unfold body_length in *; cbn; lia. }
  assert (1 ≤ Snake.length (snake g3)
          ∧ Snake.length (snake g3) ≤ body_length (snake g3) + 1) as [H3 Hle3].
  { apply check_bad_food_cases in Hb
      as (h & _ & [[_ ->] | (_ & s' & w' & b & _ & -> & Hcase)]); [done|].
    cbn [snake].
    destruct Hcase as [(Hgt & (x & Hpop) & Hs' & _) | (_ & _ & ->)].
    - apply pop_length in Hpop. rewrite Hs'. unfold body_length in *.
      cbn [Snake.set_body Snake.set_length Snake.length Snake.positions].
      lia.
    - unfold body_length. cbn. lia. }
  apply check_obstacle_cases in Ho
    as (h & Hh & [[_ ->] | (_ & w' & o & _ & _ & ->)]).
  - split; [|split; assumption]. unfold Snake.get_head_position in Hh.
    by destruct (Snake.positions (snake g3)).
  - unfold sizes_ok, body_length. cbn. repeat split; [discriminate|lia..].
Qed.

Lemma run_sizes (K : keys) (inputs : list tick_input) (g g' : game) :
  sizes_ok (snake g) → run K inputs g = Ok g' → sizes_ok (snake g').
Proof.
  revert g. induction inputs as [|i inputs IH]; intros g Hg; cbn [run].
  - by intros [= <-].
  - intros (g1 & Ht & Hr)%bind_Ok. apply (IH g1); [|done].
    by apply (tick_sizes K i g).
Qed.

Lemma main_start_snake (i : tick_input) (w : world) (g : game) :
  main_start i w = Ok g →
  snake g = Snake.__init__ ∧ current_speed g = SPEED
  ∧ (∃ pa pb po w',
        choice (elements (get_available_positions
                            (Snake.positions Snake.__init__))) (r_apple i)
        = Ok pa
        ∧ choice (elements (get_available_positions
                              (Snake.positions Snake.__init__)))
            (r_bad_food i) = Ok pb
        ∧ choice (elements (get_available_positions
                              (Snake.positions Snake.__init__)))
            (r_obstacle i) = Ok po
        ∧ change_title 1 w = Ok w'
        ∧ g = game_of Snake.__init__ pa pb po w').
Proof.
  unfold main_start, Apple.__init__, BadFood.__init__, Obstacle.__init__,
    Apple.randomize_position, BadFood.randomize_position,
    Obstacle.randomize_position.
  cbv zeta. intros (a & Ha & H)%bind_Ok.
  apply bind_Ok in Ha as (pa & Hpa & [= <-]).
  apply bind_Ok in H as (b & Hb & H).
  apply bind_Ok in Hb as (pb & Hpb & [= <-]).
  apply bind_Ok in H as (o & Ho & H).
  apply bind_Ok in Ho as (po & Hpo & [= <-]).
  apply bind_Ok in H as (w' & Hw & [= <-]).
  split; [reflexivity|]. split; [reflexivity|].
  exists pa, pb, po, w'.
  split; [exact Hpa|]. split; [exact Hpb|]. split; [exact Hpo|].
  split; [exact Hw | reflexivity].
Qed.

Lemma main_one_pass :
  main pygame_keys (no_keys 0) [no_keys 0] fresh_world
  = Ok (game_of (stepped_snake 1 [(340, 240)]) (0, 380) (0, 380) (0, 380)
          (recorded 1)).
Proof. vm_compute. reflexivity. Qed.

(** X20. In every state that [main] reaches, the body of the snake is not
    empty, its length is at least 1, and the length is at most one more
    than the number of body cells. *)
Theorem main_keeps_sizes
    (K : keys) (i0 : tick_input) (inputs : list tick_input) (w : world)
    (g : game) :
  main K i0 inputs w = Ok g → sizes_ok (snake g).
Proof.
  unfold main. intros (g0 & Hstart & Hrun)%bind_Ok.
  apply (run_sizes K inputs g0); [|done].
  apply main_start_snake in Hstart as (-> & _).
  unfold sizes_ok, body_length. cbn. repeat split; [discriminate|lia..].
Qed.

Lemma main_keeps_sizes_witness :
  sizes_ok (stepped_snake 1 [(340, 240)]).
Proof.
  apply (main_keeps_sizes pygame_keys (no_keys 0) [no_keys 0] fresh_world
           (game_of (stepped_snake 1 [(340, 240)]) (0, 380) (0, 380) (0, 380)
              (recorded 1))).
  exact main_one_pass.
Defined.

(** *** Cells and directions *)

Lemma direction_map_unit (K : keys) (key : Z) (d : cell) :
  direction_map K !! key = Some d → unit_direction d.
Proof.
  unfold direction_map, unit_direction.
  intros [[_ <-] | [_ H]]%lookup_insert_Some; [by do 3 right|].
  apply lookup_insert_Some in H as [[_ <-] | [_ H]]; [by do 2 right; left|].
  apply lookup_insert_Some in H as [[_ <-] | [_ H]]; [by right; left|].
  apply lookup_insert_Some in H as [[_ <-] | [_ H]]; [by left|].
  by rewrite lookup_empty in H.
Qed.

Lemma handle_keys_loop_next (K : keys) (evs : list event)
    (st st' : Snake.t * Z) :
  (∀ d, Snake.next_direction st.1 = Some d → unit_direction d) →
  handle_keys_loop K evs st = Ok st' →
  ∀ d, Snake.next_direction st'.1 = Some d → unit_direction d.
Proof.
  revert st. induction evs as [|e evs IH]; intros [s v] Hst;
    cbn [handle_keys_loop].
  - by intros [= <-].
  - intros (st1 & H1 & H2)%bind_Ok. apply (IH st1); [|exact H2].
    unfold handle_event in H1. destruct e as [|key|]; [discriminate|..].
    + repeat case_bool_decide; try discriminate; injection H1 as <-;
        try exact Hst.
      cbn [fst Snake.set_next_direction Snake.next_direction].
      intros d. apply direction_map_unit.
    + injection H1 as <-. exact Hst.
Qed.

Lemma init_ok : snake_ok Snake.__init__.
Proof.
  split; [|split; [|split]].
  - intros c ->%list_elem_of_singleton. exact centre_on_grid.
  - apply NoDup_singleton.
  - by do 3 right.
  - intros d. discriminate.
Qed.

Lemma update_direction_ok (s : Snake.t) :
  snake_ok s → snake_ok (Snake.update_direction s).
Proof.
  intros (Hgrid & Hnd & Hdir & Hnext). unfold Snake.update_direction.
  destruct (Snake.next_direction s) as [d|] eqn:Hd.
  - split; [exact Hgrid|]. split; [exact Hnd|].
    split; [by apply Hnext | discriminate].
  - split; [exact Hgrid|]. split; [exact Hnd|]. split; [exact Hdir|].
    intros d. rewrite Hd. discriminate.
Qed.

Lemma move_ok (s s' : Snake.t) :
  snake_ok s → Snake.move s = Ok s' → snake_ok s'.
Proof.
  intros (Hgrid & Hnd & Hdir & Hnext) Hm.
  split; [exact (move_preserves_on_grid s s' Hgrid Hm)|].
  split; [exact (move_preserves_NoDup s s' Hnd Hdir Hm)|].
  apply move_cases in Hm as (cur & rest & _ & [[_ ->] | (_ & b & l & -> & _)]).
  - split; [by do 3 right | discriminate].
  - split; [exact Hdir | exact Hnext].
Qed.

Lemma tick_ok (K : keys) (i : tick_input) (g g' : game) :
  snake_ok (snake g) → objects_on_grid g →
  tick K i g = Ok g' →
  snake_ok (snake g') ∧ objects_on_grid g'.
Proof.
  intros Hsnake (Ha & Hb & Ho) (g1 & g2 & g3 & H1 & H2 & H3 & H4)%tick_inv.
  apply step_snake_inv in H1 as (s1 & v & Hk & Hm & Ea1 & Eb1 & Eo1 & _).
  assert (snake_ok s1) as Hs1.
  { pose proof (handle_keys_only_queues K _ _ _ _ _ Hk) as Hframe.
    pose proof (handle_keys_loop_next K (events i) (snake g, current_speed g)
                  (s1, v) (proj2 (proj2 (proj2 Hsnake))) Hk) as Hn.
    destruct Hsnake as (Hgrid & Hnd & Hdir & _). rewrite Hframe.
    split; [exact Hgrid|]. split; [exact Hnd|]. split; [exact Hdir|].
    exact Hn. }
  pose proof (move_ok _ _ (update_direction_ok s1 Hs1) Hm) as Hok1.
  rewrite <- Ea1 in Ha. rewrite <- Eb1 in Hb. rewrite <- Eo1 in Ho.
  clear Hk Hm Ea1 Eb1 Eo1 Hs1 Hsnake.
  assert (snake_ok (snake g2) ∧ objects_on_grid g2) as [Hok2 (Ha2 & Hb2 & Ho2)].
  { apply check_apple_cases in H2 as (h & _ & [[_ ->] | (_ & a & Hrel & ->)]).
    - split; [exact Hok1|]. split; [exact Ha|]. split; [exact Hb | exact Ho].
    - apply (relocate_inv _ _ _ _ _ (λ _ _, eq_refl)) in Hrel as (Hin & _).
      split; [exact Hok1|]. split; [exact Hin|].
      split; [exact Hb | exact Ho]. }
  clear H2 Hok1 Ha Hb Ho.
  assert (snake_ok (snake g3) ∧ objects_on_grid g3) as [Hok3 (Ha3 & Hb3 & Ho3)].
  { apply check_bad_food_cases in H3
      as (h & _ & [[_ ->] | (_ & s' & w' & b & Hrel & -> & Hcase)]).
    - split; [exact Hok2|]. split; [exact Ha2|].
      split; [exact Hb2 | exact Ho2].
    - apply (relocate_inv _ _ _ _ _ (λ _ _, eq_refl)) in Hrel as (Hin & _).
      split; [|split; [exact Ha2|]; split; [exact Hin | exact Ho2]].
      cbn [snake].
      destruct Hcase as [(_ & (x & Hpop) & Hs' & _) | (_ & _ & ->)];
        [|exact init_ok].
      apply pop_removelast in Hpop as [Hps _].
      destruct Hok2 as (Hgrid & Hnd & Hdir & Hnext). rewrite Hs'.
      split; [|split; [|split; [exact Hdir | exact Hnext]]];
        cbn [Snake.set_body Snake.positions]; rewrite Hps.
      + intros c Hc. apply Hgrid. by apply elem_of_removelast.
      + by apply NoDup_removelast. }
  clear H3 Hok2 Ha2 Hb2 Ho2.
  apply check_obstacle_cases in H4
    as (h & _ & [[_ ->] | (_ & w' & o & _ & Hrel & ->)]).
  - split; [exact Hok3|]. split; [exact Ha3|]. split; [exact Hb3 | exact Ho3].
  - apply (relocate_inv _ _ _ _ _ (λ _ _, eq_refl)) in Hrel as (Hin & _).
    split; [exact init_ok|]. split; [exact Ha3|].
    split; [exact Hb3 | exact Hin].
Qed.

Lemma run_ok (K : keys) (inputs : list tick_input) (g g' : game) :
  snake_ok (snake g) → objects_on_grid g →
  run K inputs g = Ok g' →
  snake_ok (snake g') ∧ objects_on_grid g'.
Proof.
  revert g. induction inputs as [|i inputs IH]; intros g Hs Ho; cbn [run].
  - intros [= <-]. split; [exact Hs | exact Ho].
  - intros (g1 & Ht & Hr)%bind_Ok.
    destruct (tick_ok K i g g1 Hs Ho Ht) as [Hs1 Ho1].
    exact (IH g1 Hs1 Ho1 Hr).
Qed.

Lemma main_start_ok (i : tick_input) (w : world) (g : game) :
  main_start i w = Ok g →
  snake_ok (snake g) ∧ objects_on_grid g.
Proof.
  intros (_ & _ & pa & pb & po & w' & Ha & Hb & Ho & _ & ->)%main_start_snake.
  apply randomize_inv in Ha as (Hia & _).
  apply randomize_inv in Hb as (Hib & _).
  apply randomize_inv in Ho as (Hio & _).
  split; [exact init_ok|].
  split; [exact Hia|]. split; [exact Hib | exact Hio].
Qed.

(** X21. In every state that [main] reaches, the cells of the snake and the
    three objects are cells of [ALL_CELLS], the snake body has no repeated
    cell, and the current direction and the queued one, if any, are among
    [UP], [DOWN], [LEFT], [RIGHT]. *)
Theorem main_keeps_board
    (K : keys) (i0 : tick_input) (inputs : list tick_input) (w : world)
    (g : game) :
  main K i0 inputs w = Ok g →
  snake_ok (snake g) ∧ objects_on_grid g.
Proof.
  unfold main. intros (g0 & Hstart & Hrun)%bind_Ok.
  destruct (main_start_ok i0 w g0 Hstart) as [Hs Ho].
  exact (run_ok K inputs g0 g Hs Ho Hrun).
Qed.

Lemma main_keeps_board_witness :
  snake_ok (stepped_snake 1 [(340, 240)])
  ∧ objects_on_grid
      (game_of (stepped_snake 1 [(340, 240)]) (0, 380) (0, 380) (0, 380)
         (recorded 1)).
Proof.
  apply (main_keeps_board pygame_keys (no_keys 0) [no_keys 0] fresh_world
           (game_of (stepped_snake 1 [(340, 240)]) (0, 380) (0, 380) (0, 380)
              (recorded 1))).
  exact main_one_pass.
Defined.

(** *** The checks of one pass *)

Lemma board_size_gt_1 : 1 < board_size.
Proof. reflexivity. Qed.

Lemma head_Ok_nonempty (s : Snake.t) (h : cell) :
  Snake.get_head_position s = Ok h → Snake.positions s ≠ [].
Proof.
  unfold Snake.get_head_position. by destruct (Snake.positions s).
Qed.

Lemma nonempty_head_Ok (s : Snake.t) :
  Snake.positions s ≠ [] → ∃ h, Snake.get_head_position s = Ok h.
Proof.
  unfold Snake.get_head_position.
  destruct (Snake.positions s) as [|h l]; [done | by exists h].
Qed.

Lemma change_title_load (n : Z) (w w' : world) :
  change_title n w = Ok w' →
  ∃ hs, load_high_score (high_score_file w) = Ok hs
        ∧ load_high_score (high_score_file w') = Ok (Z.max n hs)
        ∧ caption w' = Some (Z.max n hs).
Proof.
  destruct (load_total (high_score_file w)) as [hs Hload].
  unfold change_title. rewrite Hload. cbn [mbind result_bind].
  intros Hw. exists hs. split; [reflexivity|].
  case_bool_decide as Hgt; injection Hw as <-; cbn [high_score_file caption].
  - rewrite Z.max_l by lia. split; [|reflexivity].
    unfold save_high_score, load_high_score. by rewrite strip_str, int_str.
  - rewrite Z.max_r by lia. split; [exact Hload | reflexivity].
Qed.

Lemma bind_Ok_l {A B : Type} (a : A) (f : A → result B) :
  (Ok a ≫= f) = f a.
Proof. reflexivity. Qed.

Lemma relocate_then {B : Type} (randomize : list cell → nat → result cell)
    (sp : list cell) (r : nat) (o : GameObject.t)
    (k : GameObject.t → result B) :
  (∀ sp n, randomize sp n
           = choice (elements (get_available_positions sp)) n) →
  Z.of_nat (List.length sp) < board_size →
  (∀ o', ∃ b, k o' = Ok b) →
  ∃ b, (relocate randomize sp r o ≫= k) = Ok b.
Proof.
  intros Hrand Hlen Hk.
  destruct (relocate_total randomize sp r o Hrand Hlen) as (o' & Ho).
  rewrite Ho, bind_Ok_l. apply Hk.
Qed.

Lemma check_apple_total (i : tick_input) (g : game) :
  Snake.positions (snake g) ≠ [] →
  body_length (snake g) < board_size →
  ∃ g', check_apple i g = Ok g'.
Proof.
  intros (h & Hh)%nonempty_head_Ok Hlen. unfold check_apple.
  rewrite Hh, bind_Ok_l. case_bool_decide; [|by eexists]. cbv zeta.
  apply (relocate_then _ _ _ _ _ (λ _ _, eq_refl) Hlen).
  intros o'. by eexists.
Qed.

Lemma check_bad_food_total (i : tick_input) (g : game) :
  Snake.positions (snake g) ≠ [] →
  body_length (snake g) < board_size →
  ∃ g', check_bad_food i g = Ok g'.
Proof.
  intros Hne Hlen. destruct (nonempty_head_Ok _ Hne) as (h & Hh).
  unfold check_bad_food. rewrite Hh, bind_Ok_l.
  case_bool_decide; [|by eexists]. case_bool_decide.
  - cbv zeta. cbn [Snake.set_length Snake.positions Snake.last].
    destruct (Snake.positions (snake g)) as [|c l] eqn:Hps; [done|].
    destruct (pop_cons c l) as (y & Hy). rewrite Hy, !bind_Ok_l.
    cbn [Snake.set_body Snake.positions].
    apply (relocate_then _ _ _ _ _ (λ _ _, eq_refl)).
    + apply pop_length in Hy. unfold body_length in Hlen.
      rewrite Hps in Hlen. lia.
    + intros o'. by eexists.
  - destruct (change_title_total (Snake.length (snake g)) (env g))
      as (w' & Hw).
    rewrite Hw, !bind_Ok_l.
    apply (relocate_then _ (Snake.positions (Snake.reset (snake g))) _ _ _
             (λ _ _, eq_refl) board_size_gt_1).
    intros o'. by eexists.
Qed.

Lemma check_obstacle_total (i : tick_input) (g : game) :
  Snake.positions (snake g) ≠ [] →
  ∃ g', check_obstacle i g = Ok g'.
Proof.
  intros (h & Hh)%nonempty_head_Ok. unfold check_obstacle.
  rewrite Hh, bind_Ok_l. case_bool_decide; [|by eexists].
  destruct (change_title_total (Snake.length (snake g)) (env g))
    as (w' & Hw).
  rewrite Hw, bind_Ok_l. cbv zeta.
  apply (relocate_then _ (Snake.positions (Snake.reset (snake g))) _ _ _
             (λ _ _, eq_refl) board_size_gt_1).
  intros o'. by eexists.
Qed.

(* With a high-score file that can be opened, a pass returns. *)
Lemma tick_total (K : keys) (i : tick_input) (g : game) :
  existsb (quits K) (events i) = false →
  sizes_ok (snake g) →
  body_length (snake g) + 1 < board_size →
  GameObject.position (apple g) ≠ GameObject.position (bad_food g) →
  ∃ g', tick K i g = Ok g'.
Proof.
  intros Hquit (Hne & H1 & Hle) Hboard Hdiff.
  destruct (proj2 (handle_keys_quit_or_return K (events i) (snake g)
                     (current_speed g)) Hquit) as (s1 & v & Hk).
  pose proof (handle_keys_body K _ _ _ _ _ Hk) as [Hps Hlen].
  destruct (update_direction_body s1) as [Hps' Hlen'].
  destruct (move_total (Snake.update_direction s1)) as (s3 & Hm & _).
  { by rewrite Hps', Hps. }
  pose proof (move_sizes _ _
                ltac:(rewrite Hlen', Hlen; exact H1)
                ltac:(unfold body_length in *;
                      rewrite Hlen', Hlen, Hps', Hps; exact Hle) Hm)
    as (Hne3 & H13 & Hle3 & Hgrow).
  assert (body_length s3 < board_size) as Hboard3.
  { unfold body_length in *. rewrite Hps', Hps in Hgrow. lia. }
  assert (step_snake K i g
          = Ok {| snake := s3; apple := apple g; bad_food := bad_food g;
                  obstacle := obstacle g; current_speed := v;
                  env := env g |}) as Hstep.
  { unfold step_snake. rewrite Hk. cbn [mbind result_bind]. by rewrite Hm. }
  unfold tick. rewrite Hstep. cbn [mbind result_bind].
  set (g1 := {| snake := s3; apple := apple g; bad_food := bad_food g;
                obstacle := obstacle g; current_speed := v; env := env g |}).
  destruct (check_apple_total i g1 Hne3 Hboard3) as (g2 & H2).
  rewrite H2. cbn [mbind result_bind].
  apply check_apple_cases in H2 as (h & Hh & Hcase2).
  assert (Snake.positions (snake g2) = Snake.positions s3) as Hps2.
  { destruct Hcase2 as [[_ ->] | (_ & a & _ & ->)]; reflexivity. }
  assert (bad_food g2 = bad_food g) as Hbf2.
  { destruct Hcase2 as [[_ ->] | (_ & a & _ & ->)]; reflexivity. }
  destruct (check_bad_food_total i g2) as (g3 & H3).
  { by rewrite Hps2. }
  { unfold body_length in *. by rewrite Hps2. }
  rewrite H3. cbn [mbind result_bind].
  apply check_obstacle_total.
  apply check_bad_food_cases in H3
    as (h' & Hh' & [[_ ->] | (Hhit & s' & w' & b & _ & -> & Hcase3)]).
  { by rewrite Hps2. }
  cbn [snake].
  destruct Hcase3 as [(Hgt & (x & Hpop) & _ & _) | (_ & _ & ->)];
    [|discriminate].
  assert (h' = h) as ->.
  { unfold Snake.get_head_position in Hh, Hh'. rewrite Hps2 in Hh'.
    cbn [snake g1] in Hh. rewrite Hh in Hh'. by injection Hh'. }
  assert (g2 = g1) as ->.
  { destruct Hcase2 as [[_ ->] | (Happle & _)]; [reflexivity|].
    exfalso. apply Hdiff. cbn [apple g1] in Happle.
    rewrite <- Happle, <- Hbf2. exact Hhit. }
  apply pop_length in Hpop. cbn [snake g1] in Hpop, Hgt.
  unfold body_length in Hle3. intros Hnil. rewrite Hnil in Hpop.
  cbn [List.length] in Hpop. lia.
Qed.

(** With both permissions on the high-score file, the functions of [Disk]
    are the functions of the program on a file that can be opened. *)
Lemma disk_change_title_full (a : access) (n : Z) (w : world) :
  can_read a = true → can_write a = true →
  Disk.change_title a n w = change_title n w.
Proof.
  intros Hr Hw. unfold Disk.change_title, change_title, Disk.save_high_score.
  rewrite (disk_load_readable a _ Hr), Hw.
  destruct (load_high_score (high_score_file w)) as [hs|e]; [|reflexivity].
  rewrite !bind_Ok_l. case_bool_decide; reflexivity.
Qed.

Lemma disk_check_bad_food_full (a : access) (i : tick_input) (g : game) :
  can_read a = true → can_write a = true →
  Disk.check_bad_food a i g = check_bad_food i g.
Proof.
  intros Hr Hw. unfold Disk.check_bad_food, check_bad_food.
  rewrite (disk_change_title_full a _ _ Hr Hw). reflexivity.
Qed.

Lemma disk_check_obstacle_full (a : access) (i : tick_input) (g : game) :
  can_read a = true → can_write a = true →
  Disk.check_obstacle a i g = check_obstacle i g.
Proof.
  intros Hr Hw. unfold Disk.check_obstacle, check_obstacle.
  rewrite (disk_change_title_full a _ _ Hr Hw). reflexivity.
Qed.

Lemma disk_tick_full (a : access) (K : keys) (i : tick_input) (g : game) :
  can_read a = true → can_write a = true →
  Disk.tick a K i g = tick K i g.
Proof.
  intros Hr Hw. unfold Disk.tick, tick.
  destruct (step_snake K i g) as [g1|e]; [|reflexivity].
  rewrite !bind_Ok_l.
  destruct (check_apple i g1) as [g2|e]; [|reflexivity].
  rewrite !bind_Ok_l.
  rewrite (disk_check_bad_food_full a i g2 Hr Hw).
  destruct (check_bad_food i g2) as [g3|e]; [|reflexivity].
  rewrite !bind_Ok_l.
  exact (disk_check_obstacle_full a i g3 Hr Hw).
Qed.

(** X22. A pass of the loop returns a new state and raises nothing when the
    high-score file can be opened for reading and for writing, no event
    asks to quit, the snake is in a state [main] can reach and still shorter
    than the board, and the apple and the bad food lie on different
    cells. *)
Theorem tick_returns (a : access) (K : keys) (i : tick_input) (g : game) :
  can_read a = true → can_write a = true →
  existsb (quits K) (events i) = false →
  sizes_ok (snake g) →
  body_length (snake g) + 1 < board_size →
  GameObject.position (apple g) ≠ GameObject.position (bad_food g) →
  ∃ g', Disk.tick a K i g = Ok g'.
Proof.
  intros Hr Hw Hquit Hsizes Hboard Hdiff.
  rewrite (disk_tick_full a K i g Hr Hw).
  exact (tick_total K i g Hquit Hsizes Hboard Hdiff).
Qed.

Lemma tick_returns_witness :
  ∃ g', Disk.tick full_access pygame_keys (no_keys 0)
          (start_with (340, 240) (0, 0) (20, 0) fresh_world) = Ok g'.
Proof.
  apply (tick_returns full_access pygame_keys (no_keys 0)
           (start_with (340, 240) (0, 0) (20, 0) fresh_world)).
  - reflexivity.
  - reflexivity.
  - reflexivity.
  - unfold sizes_ok. vm_compute. repeat split; discriminate.
  - reflexivity.
  - discriminate.
Defined.

(** X23. When the head is on the apple, [check_apple] adds 1 to [length],
    leaves the body as it is and moves the apple to a cell of the board off
    the snake; the bad food, the obstacle, the speed and the stored record
    stay. *)
Theorem check_apple_eats (i : tick_input) (g g' : game) :
  check_apple i g = Ok g' →
  head_at (snake g) (apple g) = true →
  snake g' = Snake.set_length (snake g) (Snake.length (snake g) + 1)
  ∧ GameObject.position (apple g') ∈ ALL_CELLS
  ∧ (GameObject.position (apple g') ∉ Snake.positions (snake g))
  ∧ GameObject.body_color (apple g') = GameObject.body_color (apple g)
  ∧ bad_food g' = bad_food g ∧ obstacle g' = obstacle g
  ∧ current_speed g' = current_speed g ∧ env g' = env g.
Proof.
  intros (h & Hh & Hcase)%check_apple_cases Hhit.
  apply (head_at_true _ _ h Hh) in Hhit.
  destruct Hcase as [[Hmiss _] | (_ & a & Hrel & ->)]; [by destruct Hmiss|].
  apply (relocate_inv _ _ _ _ _ (λ _ _, eq_refl)) in Hrel
    as (Hin & Hout & Hcol).
  split; [reflexivity|]. split; [exact Hin|]. split; [exact Hout|].
  split; [exact Hcol|]. repeat split.
Qed.

Lemma check_apple_eats_witness :
  snake after_apple
  = Snake.set_length (snake at_apple) (Snake.length (snake at_apple) + 1)
  ∧ GameObject.position (apple after_apple) ∈ ALL_CELLS
  ∧ (GameObject.position (apple after_apple)
     ∉ Snake.positions (snake at_apple))
  ∧ GameObject.body_color (apple after_apple)
    = GameObject.body_color (apple at_apple)
  ∧ bad_food after_apple = bad_food at_apple
  ∧ obstacle after_apple = obstacle at_apple
  ∧ current_speed after_apple = current_speed at_apple
  ∧ env after_apple = env at_apple.
Proof.
  apply (check_apple_eats (no_keys 0) at_apple after_apple).
  - vm_compute. reflexivity.
  - vm_compute. reflexivity.
Defined.

(** X24. When the head is on the obstacle, [check_obstacle] resets the
    snake, leaves the larger of the snake's length and the old record in
    the file and the title, and moves the obstacle to a cell of the board
    other than the centre; the apple, the bad food and the speed stay. *)
Theorem check_obstacle_resets (i : tick_input) (g g' : game) :
  check_obstacle i g = Ok g' →
  head_at (snake g) (obstacle g) = true →
  snake g' = Snake.__init__
  ∧ GameObject.position (obstacle g') ∈ ALL_CELLS
  ∧ GameObject.position (obstacle g') ≠ (SCREEN_WIDTH / 2, SCREEN_HEIGHT / 2)
  ∧ (∃ hs, load_high_score (high_score_file (env g)) = Ok hs
           ∧ load_high_score (high_score_file (env g'))
             = Ok (Z.max (Snake.length (snake g)) hs)
           ∧ caption (env g') = Some (Z.max (Snake.length (snake g)) hs))
  ∧ apple g' = apple g ∧ bad_food g' = bad_food g
  ∧ current_speed g' = current_speed g.
Proof.
  intros (h & Hh & Hcase)%check_obstacle_cases Hhit.
  apply (head_at_true _ _ h Hh) in Hhit.
  destruct Hcase as [[Hmiss _] | (_ & w' & o & Hw & Hrel & ->)];
    [by destruct Hmiss|].
  apply (relocate_inv _ _ _ _ _ (λ _ _, eq_refl)) in Hrel
    as (Hin & Hout & _).
  split; [reflexivity|]. split; [exact Hin|]. split.
  { intros Heq. apply Hout. cbn [obstacle] in Heq. rewrite Heq.
    apply list_elem_of_here. }
  split; [exact (change_title_load _ _ _ Hw)|]. repeat split.
Qed.

Lemma check_obstacle_resets_witness :
  snake after_obstacle = Snake.__init__
  ∧ GameObject.position (obstacle after_obstacle) ∈ ALL_CELLS
  ∧ GameObject.position (obstacle after_obstacle)
    ≠ (SCREEN_WIDTH / 2, SCREEN_HEIGHT / 2)
  ∧ (∃ hs, load_high_score (high_score_file (env at_obstacle)) = Ok hs
           ∧ load_high_score (high_score_file (env after_obstacle))
             = Ok (Z.max (Snake.length (snake at_obstacle)) hs)
           ∧ caption (env after_obstacle)
             = Some (Z.max (Snake.length (snake at_obstacle)) hs))
  ∧ apple after_obstacle = apple at_obstacle
  ∧ bad_food after_obstacle = bad_food at_obstacle
  ∧ current_speed after_obstacle = current_speed at_obstacle.
Proof.
  apply (check_obstacle_resets (no_keys 0) at_obstacle after_obstacle).
  - vm_compute. reflexivity.
  - vm_compute. reflexivity.
Defined.

(** X25. When the head is on the bad food and [length] is above 1,
    [check_bad_food] takes 1 from [length] and drops the last cell of the
    body, keeps the direction and the stored record, and moves the bad food
    to a cell of the board off the shortened body. *)
Theorem check_bad_food_shrinks (i : tick_input) (g g' : game) :
  check_bad_food i g = Ok g' →
  head_at (snake g) (bad_food g) = true →
  Snake.length (snake g) > 1 →
  ∃ body t,
    Snake.positions (snake g) = body ++ [t]
    ∧ Snake.positions (snake g') = body
    ∧ Snake.length (snake g') = Snake.length (snake g) - 1
    ∧ Snake.direction (snake g') = Snake.direction (snake g)
    ∧ env g' = env g
    ∧ GameObject.position (bad_food g') ∈ ALL_CELLS
    ∧ (GameObject.position (bad_food g') ∉ body)
    ∧ apple g' = apple g ∧ obstacle g' = obstacle g.
Proof.
  intros (h & Hh & Hcase)%check_bad_food_cases Hhit Hlen.
  apply (head_at_true _ _ h Hh) in Hhit.
  destruct Hcase as [[Hmiss _] | (_ & s' & w' & b & Hrel & -> & Hcase)];
    [by destruct Hmiss|].
  apply (relocate_inv _ _ _ _ _ (λ _ _, eq_refl)) in Hrel
    as (Hin & Hout & _).
  destruct Hcase as [(_ & (x & Hpop) & Hs' & ->) | (Hle & _)]; [|lia].
  apply pop_removelast in Hpop as [_ Hps].
  exists (Snake.positions s'), x. split; [exact Hps|].
  split; [reflexivity|]. cbn [snake bad_food apple obstacle env].
  split; [by rewrite Hs'|]. split; [by rewrite Hs'|].
  split; [reflexivity|]. split; [exact Hin|]. split; [exact Hout|].
  split; reflexivity.
Qed.

Lemma check_bad_food_shrinks_witness :
  ∃ body t,
    Snake.positions (snake at_bad_food_long) = body ++ [t]
    ∧ Snake.positions (snake after_bad_food_long) = body
    ∧ Snake.length (snake after_bad_food_long)
      = Snake.length (snake at_bad_food_long) - 1
    ∧ Snake.direction (snake after_bad_food_long)
      = Snake.direction (snake at_bad_food_long)
    ∧ env after_bad_food_long = env at_bad_food_long
    ∧ GameObject.position (bad_food after_bad_food_long) ∈ ALL_CELLS
    ∧ (GameObject.position (bad_food after_bad_food_long) ∉ body)
    ∧ apple after_bad_food_long = apple at_bad_food_long
    ∧ obstacle after_bad_food_long = obstacle at_bad_food_long.
Proof.
  apply (check_bad_food_shrinks (no_keys 0) at_bad_food_long
           after_bad_food_long).
  - vm_compute. reflexivity.
  - vm_compute. reflexivity.
  - vm_compute. reflexivity.
Defined.

(** X26. When the head is on the bad food and [length] is not above 1,
    [check_bad_food] resets the snake, leaves the larger of the snake's
    length and the old record in the file and the title, and moves the bad
    food to a cell of the board other than the centre. *)
Theorem check_bad_food_resets (i : tick_input) (g g' : game) :
  check_bad_food i g = Ok g' →
  head_at (snake g) (bad_food g) = true →
  Snake.length (snake g) ≤ 1 →
  snake g' = Snake.__init__
  ∧ GameObject.position (bad_food g') ∈ ALL_CELLS
  ∧ GameObject.position (bad_food g') ≠ (SCREEN_WIDTH / 2, SCREEN_HEIGHT / 2)
  ∧ (∃ hs, load_high_score (high_score_file (env g)) = Ok hs
           ∧ load_high_score (high_score_file (env g'))
             = Ok (Z.max (Snake.length (snake g)) hs)
           ∧ caption (env g') = Some (Z.max (Snake.length (snake g)) hs))
  ∧ apple g' = apple g ∧ obstacle g' = obstacle g
  ∧ current_speed g' = current_speed g.
Proof.
  intros (h & Hh & Hcase)%check_bad_food_cases Hhit Hlen.
  apply (head_at_true _ _ h Hh) in Hhit.
  destruct Hcase as [[Hmiss _] | (_ & s' & w' & b & Hrel & -> & Hcase)];
    [by destruct Hmiss|].
  destruct Hcase as [(Hgt & _) | (_ & Hw & ->)]; [lia|].
  apply (relocate_inv _ _ _ _ _ (λ _ _, eq_refl)) in Hrel
    as (Hin & Hout & _).
  split; [reflexivity|]. split; [exact Hin|]. split.
  { intros Heq. apply Hout. cbn [bad_food] in Heq. rewrite Heq.
    apply list_elem_of_here. }
  split; [exact (change_title_load _ _ _ Hw)|]. repeat split.
Qed.

Lemma check_bad_food_resets_witness :
  snake after_bad_food_short = Snake.__init__
  ∧ GameObject.position (bad_food after_bad_food_short) ∈ ALL_CELLS
  ∧ GameObject.position (bad_food after_bad_food_short)
    ≠ (SCREEN_WIDTH / 2, SCREEN_HEIGHT / 2)
  ∧ (∃ hs, load_high_score (high_score_file (env at_bad_food_short)) = Ok hs
           ∧ load_high_score (high_score_file (env after_bad_food_short))
             = Ok (Z.max (Snake.length (snake at_bad_food_short)) hs)
           ∧ caption (env after_bad_food_short)
             = Some (Z.max (Snake.length (snake at_bad_food_short)) hs))
  ∧ apple after_bad_food_short = apple at_bad_food_short
  ∧ obstacle after_bad_food_short = obstacle at_bad_food_short
  ∧ current_speed after_bad_food_short = current_speed at_bad_food_short.
Proof.
  apply (check_bad_food_resets (no_keys 0) at_bad_food_short
           after_bad_food_short).
  - vm_compute. reflexivity.
  - vm_compute. reflexivity.
  - vm_compute. discriminate.
Defined.

(** X27. A pass in which the head reaches none of the three objects only
    moves the snake: the state after [handle_keys], [update_direction] and
    [move] is the result of the pass, and the objects and the stored record
    are those of before. *)
Theorem quiet_pass (K : keys) (i : tick_input) (g g1 : game) :
  step_snake K i g = Ok g1 →
  head_at (snake g1) (apple g1) = false →
  head_at (snake g1) (bad_food g1) = false →
  head_at (snake g1) (obstacle g1) = false →
  tick K i g = Ok g1
  ∧ apple g1 = apple g ∧ bad_food g1 = bad_food g
  ∧ obstacle g1 = obstacle g ∧ env g1 = env g.
Proof.
  intros Hstep Ha Hb Ho.
  pose proof (step_snake_inv K i g g1 Hstep)
    as (s1 & v & _ & Hm & Ea & Eb & Eo & Ee).
  split; [|repeat split; assumption].
  apply move_body_nonempty, nonempty_head_Ok in Hm as (h & Hh).
  unfold head_at in Ha, Hb, Ho. rewrite Hh in Ha, Hb, Ho.
  unfold tick. rewrite Hstep, bind_Ok_l.
  assert (check_apple i g1 = Ok g1) as ->.
  { unfold check_apple. by rewrite Hh, bind_Ok_l, Ha. }
  rewrite bind_Ok_l.
  assert (check_bad_food i g1 = Ok g1) as ->.
  { unfold check_bad_food. by rewrite Hh, bind_Ok_l, Hb. }
  rewrite bind_Ok_l. unfold check_obstacle. by rewrite Hh, bind_Ok_l, Ho.
Qed.

Lemma quiet_pass_witness :
  tick pygame_keys (no_keys 0) before_quiet_pass = Ok after_quiet_pass
  ∧ apple after_quiet_pass = apple before_quiet_pass
  ∧ bad_food after_quiet_pass = bad_food before_quiet_pass
  ∧ obstacle after_quiet_pass = obstacle before_quiet_pass
  ∧ env after_quiet_pass = env before_quiet_pass.
Proof.
  apply (quiet_pass pygame_keys (no_keys 0) before_quiet_pass
           after_quiet_pass).
  - vm_compute. reflexivity.
  - vm_compute. reflexivity.
  - vm_compute. reflexivity.
  - vm_compute. reflexivity.
Defined.

Lemma main_start_eq (i : tick_input) (w w' : world) (pa pb po : cell) :
  choice (elements (get_available_positions (Snake.positions Snake.__init__)))
    (r_apple i) = Ok pa →
  choice (elements (get_available_positions (Snake.positions Snake.__init__)))
    (r_bad_food i) = Ok pb →
  choice (elements (get_available_positions (Snake.positions Snake.__init__)))
    (r_obstacle i) = Ok po →
  change_title 1 w = Ok w' →
  main_start i w = Ok (game_of Snake.__init__ pa pb po w').
Proof.
  intros Ha Hb Ho Hw.
  unfold main_start, Apple.__init__, BadFood.__init__, Obstacle.__init__,
    Apple.randomize_position, BadFood.randomize_position,
    Obstacle.randomize_position.
  cbv zeta. rewrite Ha, !bind_Ok_l. rewrite Hb, !bind_Ok_l.
  rewrite Ho, !bind_Ok_l.
  change (Snake.length Snake.__init__) with 1. rewrite Hw, bind_Ok_l.
  reflexivity.
Qed.

(* The start of a game on a high-score file that can be opened. *)
Lemma main_start_total (i : tick_input) (w : world) :
  ∃ g, main_start i w = Ok g
       ∧ snake g = Snake.__init__
       ∧ current_speed g = SPEED
       ∧ objects_on_grid g
       ∧ GameObject.position (apple g) ≠ (SCREEN_WIDTH / 2, SCREEN_HEIGHT / 2)
       ∧ GameObject.position (bad_food g)
         ≠ (SCREEN_WIDTH / 2, SCREEN_HEIGHT / 2)
       ∧ GameObject.position (obstacle g)
         ≠ (SCREEN_WIDTH / 2, SCREEN_HEIGHT / 2)
       ∧ (∃ hs, load_high_score (high_score_file w) = Ok hs
                ∧ load_high_score (high_score_file (env g))
                  = Ok (Z.max 1 hs)).
Proof.
  destruct (randomize_total (Snake.positions Snake.__init__) (r_apple i)
              board_size_gt_1) as (pa & Ha).
  destruct (randomize_total (Snake.positions Snake.__init__) (r_bad_food i)
              board_size_gt_1) as (pb & Hb).
  destruct (randomize_total (Snake.positions Snake.__init__) (r_obstacle i)
              board_size_gt_1) as (po & Ho).
  destruct (change_title_total 1 w) as (w' & Hw).
  exists (game_of Snake.__init__ pa pb po w').
  split; [exact (main_start_eq i w w' pa pb po Ha Hb Ho Hw)|].
  apply randomize_inv in Ha as (Hia & Hoa).
  apply randomize_inv in Hb as (Hib & Hob).
  apply randomize_inv in Ho as (Hio & Hoo).
  split; [reflexivity|]. split; [reflexivity|].
  split; [split; [exact Hia|]; split; [exact Hib | exact Hio]|].
  split; [intros Heq; apply Hoa; cbn [game_of apple GameObject.position] in Heq;
          rewrite Heq; apply list_elem_of_here|].
  split; [intros Heq; apply Hob;
          cbn [game_of bad_food GameObject.position] in Heq;
          rewrite Heq; apply list_elem_of_here|].
  split; [intros Heq; apply Hoo;
          cbn [game_of obstacle GameObject.position] in Heq;
          rewrite Heq; apply list_elem_of_here|].
  destruct (change_title_load 1 w w' Hw) as (hs & Hl & Hl' & _).
  exists hs. split; [exact Hl | exact Hl'].
Qed.

Lemma disk_main_start_full (a : access) (i : tick_input) (w : world) :
  can_read a = true → can_write a = true →
  Disk.main_start a i w = main_start i w.
Proof.
  intros Hr Hw. unfold Disk.main_start, main_start.
  rewrite (disk_change_title_full a _ _ Hr Hw). reflexivity.
Qed.

Lemma disk_change_title_unreadable (a : access) (n : Z) (w : world)
    (text : string) :
  can_read a = false → high_score_file w = Some text →
  Disk.change_title a n w = Raise OSError.
Proof.
  intros Hr Hf. unfold Disk.change_title, Disk.load_high_score.
  rewrite Hf, Hr. reflexivity.
Qed.

Lemma disk_main_start_unreadable (a : access) (i : tick_input) (w : world)
    (text : string) :
  can_read a = false → high_score_file w = Some text →
  Disk.main_start a i w = Raise OSError.
Proof.
  intros Hr Hf.
  destruct (randomize_total (Snake.positions Snake.__init__) (r_apple i)
              board_size_gt_1) as (pa & Ha).
  destruct (randomize_total (Snake.positions Snake.__init__) (r_bad_food i)
              board_size_gt_1) as (pb & Hb).
  destruct (randomize_total (Snake.positions Snake.__init__) (r_obstacle i)
              board_size_gt_1) as (po & Ho).
  unfold Disk.main_start, Apple.__init__, BadFood.__init__, Obstacle.__init__,
    Apple.randomize_position, BadFood.randomize_position,
    Obstacle.randomize_position.
  cbv zeta. rewrite Ha, !bind_Ok_l. rewrite Hb, !bind_Ok_l.
  rewrite Ho, !bind_Ok_l.
  rewrite (disk_change_title_unreadable a _ w text Hr Hf). reflexivity.
Qed.

(** X28. When the high-score file can be opened for reading and for
    writing, the start of a game succeeds: the snake is the initial one,
    the speed is [SPEED], the three objects lie on the board off the centre
    cell, and the file then holds the larger of 1 and the old record.  When
    the high-score file exists and cannot be opened for reading, the start
    raises [OSError]. *)
Theorem main_start_succeeds (a : access) (i : tick_input) (w : world) :
  (can_read a = true → can_write a = true →
   ∃ g, Disk.main_start a i w = Ok g
        ∧ snake g = Snake.__init__
        ∧ current_speed g = SPEED
        ∧ objects_on_grid g
        ∧ GameObject.position (apple g) ≠ (SCREEN_WIDTH / 2, SCREEN_HEIGHT / 2)
        ∧ GameObject.position (bad_food g)
          ≠ (SCREEN_WIDTH / 2, SCREEN_HEIGHT / 2)
        ∧ GameObject.position (obstacle g)
          ≠ (SCREEN_WIDTH / 2, SCREEN_HEIGHT / 2)
        ∧ (∃ hs, Disk.load_high_score a (high_score_file w) = Ok hs
                 ∧ Disk.load_high_score a (high_score_file (env g))
                   = Ok (Z.max 1 hs)))
  ∧ (can_read a = false →
     ∀ text, high_score_file w = Some text →
             Disk.main_start a i w = Raise OSError).
Proof.
  split.
  - intros Hr Hw. rewrite (disk_main_start_full a i w Hr Hw).
    rewrite (disk_load_readable a (high_score_file w) Hr).
    destruct (main_start_total i w)
      as (g & Hg & Hsnake & Hspeed & Hgrid & Hpa & Hpb & Hpo & hs & Hl & Hl').
    exists g. rewrite (disk_load_readable a (high_score_file (env g)) Hr).
    split; [exact Hg|]. split; [exact Hsnake|]. split; [exact Hspeed|].
    split; [exact Hgrid|]. split; [exact Hpa|]. split; [exact Hpb|].
    split; [exact Hpo|]. exists hs. split; [exact Hl | exact Hl'].
  - intros Hr text Hf. exact (disk_main_start_unreadable a i w text Hr Hf).
Qed.

Lemma main_start_succeeds_witness :
  (∃ g, Disk.main_start full_access (no_keys 0) fresh_world = Ok g
        ∧ snake g = Snake.__init__)
  ∧ Disk.main_start no_access (no_keys 0) (recorded 1) = Raise OSError.
Proof.
  split.
  - destruct (proj1 (main_start_succeeds full_access (no_keys 0) fresh_world)
                eq_refl eq_refl) as (g & Hg & Hsnake & _).
    exists g. split; [exact Hg | exact Hsnake].
  - apply (proj2 (main_start_succeeds no_access (no_keys 0) (recorded 1))
             eq_refl (str 1)).
    reflexivity.
Defined.

(** X29. Nothing keeps the objects apart: for every cell of the board other
    than the centre there are random numbers for which the game starts with
    the apple, the bad food and the obstacle all on that cell. *)
Theorem objects_may_coincide (w : world) (c : cell) :
  c ∈ ALL_CELLS → c ≠ (SCREEN_WIDTH / 2, SCREEN_HEIGHT / 2) →
  ∃ i g, main_start i w = Ok g
         ∧ GameObject.position (apple g) = c
         ∧ GameObject.position (bad_food g) = c
         ∧ GameObject.position (obstacle g) = c.
Proof.
  intros Hc Hne.
  assert (c ∈ elements
                (get_available_positions (Snake.positions Snake.__init__)))
    as Hin.
  { apply elem_of_elements, elem_of_available. split; [exact Hc|].
    intros Hin. apply Hne. by apply list_elem_of_singleton in Hin. }
  apply choice_reaches in Hin as (r & Hr).
  destruct (change_title_total 1 w) as (w' & Hw).
  exists {| events := []; r_apple := r; r_bad_food := r; r_obstacle := r |},
    (game_of Snake.__init__ c c c w').
  split; [|repeat split].
  apply main_start_eq; [| | |exact Hw].
  - cbn [r_apple]. exact Hr.
  - cbn [r_bad_food]. exact Hr.
  - cbn [r_obstacle]. exact Hr.
Qed.

Lemma cell_340_240_on_grid : (340, 240) ∈ ALL_CELLS.
Proof.
  apply cell_on_grid. unfold SCREEN_WIDTH, SCREEN_HEIGHT, GRID_SIZE.
  repeat split; lia.
Qed.

Lemma objects_may_coincide_witness :
  ∃ i g, main_start i fresh_world = Ok g
         ∧ GameObject.position (apple g) = (340, 240)
         ∧ GameObject.position (bad_food g) = (340, 240)
         ∧ GameObject.position (obstacle g) = (340, 240).
Proof.
  apply (objects_may_coincide fresh_world (340, 240)).
  - exact cell_340_240_on_grid.
  - discriminate.
Defined.
